(** * UMD container decoder ([umd_metadata_ng/umd_io.py]): shallow embedding

    The Python class [UMDFile] decodes a binary e-book container in three
    passes over one stream ([read_metadata], [read_content], [read_cover])
    and then cuts the decoded body into chapters ([from_stream]).

    The embedding follows the source line by line:
    - a stream is the byte string it holds and a cursor ([stream]);
    - Python exceptions are the constructors of [exn], a computation is a
      function from the stream to a [result] and the new stream ([M]);
    - [while True] loops iterate a loop body that answers [Continue] or
      [Break] ([while_true]); the iteration count is bounded by a fuel
      argument, and running out of it is the separate outcome [OutOfFuel];
    - the metadata [dict] is a finite map from key strings to Python values;
    - [zlib.decompress] is a parameter of the development. *)

From Stdlib Require Import ZArith Lia.
From Stdlib.Strings Require Import Byte Ascii.
From stdpp Require Import base option list strings gmap fin_maps.

Local Open Scope Z_scope.

(** ** Bytes, strings and Python values *)

Abbreviation bytes := (list byte).

(** A Python [str] is its sequence of code points. *)
Abbreviation pystr := (list Z).

#[global] Instance byte_eq_decision : EqDecision byte := Byte.byte_eq_dec.

Definition byte_to_Z (b : byte) : Z := Z.of_N (Byte.to_N b).

Definition byte_of_Z (z : Z) : byte :=
  default x00 (Byte.of_N (Z.to_N (z mod 256))).

(** The code points of an ASCII literal of the source. *)
Definition str_lit (s : string) : pystr :=
  (λ a, Z.of_N (N_of_ascii a)) <$> String.list_ascii_of_string s.

(** The values the metadata dict holds: [str] (text blocks and the
    category), [int] ([full_length], [body_offset]), a tuple of [int]
    ([chapter_offsets]) and a list of [str] ([chapter_titles]). *)
Inductive pyval :=
| VStr (s : pystr)
| VInt (n : Z)
| VTuple (xs : list Z)
| VList (xs : list pystr).

#[global] Instance pyval_eq_decision : EqDecision pyval.
Proof. solve_decision. Defined.

Abbreviation dict := (gmap string pyval).

(** ** Exceptions and results *)

(** The three [assert] statements of the source. *)
Inductive assertion :=
| splitter_is_hash   (* assert splitter == b'#'          (read_metadata) *)
| i1_eq_i2           (* assert i1 == i2                  (blocks 0x83, 0x84) *)
| rnd_lst_eq.        (* assert tuple(rnd_lst) == rnd_lst2 (read_content) *)

(** A key that was looked up: the category dict is indexed by an [int], the
    metadata dict by a [str]. *)
Inductive pykey := KInt (n : Z) | KStr (s : string).

#[global] Instance pykey_eq_decision : EqDecision pykey.
Proof. solve_decision. Defined.

Inductive exn :=
| ValueError (msg : string)
| AssertionError (a : assertion)
| StructError                    (* struct.error *)
| KeyError (k : pykey)
| IndexError
| TypeError
| UnicodeDecodeError
| ZlibError.                     (* zlib.error *)

Inductive result (A : Type) :=
| Ok (a : A)
| Raise (e : exn)
| OutOfFuel.
Arguments Ok {A} a.
Arguments Raise {A} e.
Arguments OutOfFuel {A}.

#[global] Instance result_ret : MRet result := λ A a, Ok a.
#[global] Instance result_bind : MBind result := λ A B k m,
  match m with
  | Ok a => k a
  | Raise e => Raise e
  | OutOfFuel => OutOfFuel
  end.

(** ** [struct.unpack] with the little-endian prefix ["<"] *)

Inductive fmt := Fc | Fb | Fh | FH | Fi.

Definition item_size (f : fmt) : nat :=
  match f with Fc | Fb => 1 | Fh | FH => 2 | Fi => 4 end%nat.

Definition calcsize (fs : list fmt) : nat := sum_list (item_size <$> fs).

(** ["c"] yields a [bytes] of length one, the other codes an [int]. *)
Definition item_type (f : fmt) : Type :=
  match f with Fc => bytes | _ => Z end.

Fixpoint tuple_of (fs : list fmt) : Type :=
  match fs with
  | [] => unit
  | f :: fs' => (item_type f * tuple_of fs')%type
  end.

Definition le_uint (bs : bytes) : Z :=
  foldr (λ b acc, byte_to_Z b + 256 * acc) 0 bs.

Definition to_signed (bits : Z) (u : Z) : Z :=
  if decide (u < 2 ^ (bits - 1)) then u else u - 2 ^ bits.

Definition decode_item (f : fmt) (bs : bytes) : item_type f :=
  match f with
  | Fc => bs
  | Fb => to_signed 8 (le_uint bs)
  | Fh => to_signed 16 (le_uint bs)
  | FH => le_uint bs
  | Fi => to_signed 32 (le_uint bs)
  end.

Fixpoint unpack_items (fs : list fmt) (bs : bytes) : tuple_of fs :=
  match fs with
  | [] => tt
  | f :: fs' =>
      (decode_item f (take (item_size f) bs),
       unpack_items fs' (drop (item_size f) bs))
  end.

(** [struct.unpack("<...", bs)]: the buffer must have exactly the size the
    format asks for. *)
Definition unpack (fs : list fmt) (bs : bytes) : result (tuple_of fs) :=
  if decide (length bs = calcsize fs) then Ok (unpack_items fs bs)
  else Raise StructError.

(** [struct.unpack("<" + "i" * n, bs)]: a tuple of [n] signed 32-bit
    integers; a negative [n] repeats the code zero times. *)
Fixpoint unpack_items_seq (f : fmt) (n : nat) (bs : bytes) : list (item_type f) :=
  match n with
  | O => []
  | S n' =>
      decode_item f (take (item_size f) bs)
        :: unpack_items_seq f n' (drop (item_size f) bs)
  end.

Definition unpack_seq (f : fmt) (n : Z) (bs : bytes) : result (list (item_type f)) :=
  if decide (length bs = (Z.to_nat n * item_size f)%nat)
  then Ok (unpack_items_seq f (Z.to_nat n) bs)
  else Raise StructError.

(** ** [bytes.decode("utf-16-le")] (strict) *)

Definition utf16_unit (b0 b1 : byte) : Z := byte_to_Z b0 + 256 * byte_to_Z b1.

Definition is_high_surrogate (u : Z) : bool := bool_decide (0xD800 ≤ u ≤ 0xDBFF).
Definition is_low_surrogate (u : Z) : bool := bool_decide (0xDC00 ≤ u ≤ 0xDFFF).

(** [None] stands for [UnicodeDecodeError]: a truncated unit, a lone low
    surrogate, or a high surrogate that no low surrogate follows. *)
Fixpoint utf16le_code_points (bs : bytes) : option pystr :=
  match bs with
  | [] => Some []
  | [_] => None
  | b0 :: b1 :: rest =>
      let u := utf16_unit b0 b1 in
      if is_high_surrogate u then
        match rest with
        | c0 :: c1 :: rest' =>
            let v := utf16_unit c0 c1 in
            if is_low_surrogate v then
              cons (0x10000 + (u - 0xD800) * 0x400 + (v - 0xDC00))
                <$> utf16le_code_points rest'
            else None
        | _ => None
        end
      else if is_low_surrogate u then None
      else cons u <$> utf16le_code_points rest
  end.

Definition decode_utf16le (bs : bytes) : result pystr :=
  match utf16le_code_points bs with
  | Some s => Ok s
  | None => Raise UnicodeDecodeError
  end.

(** ** Sequence indexing and slicing *)

(** A slice bound on a sequence of length [len]: an index below zero counts
    from the end, and the result is clipped to [0 .. len]. *)
Definition slice_index (len i : Z) : Z :=
  let j := if decide (i < 0) then i + len else i in
  if decide (j < 0) then 0 else if decide (len < j) then len else j.

(** [seq[start:stop]]; [stop = None] is [seq[start:]]. *)
Definition py_slice {A} (l : list A) (start : Z) (stop : option Z) : list A :=
  let len := Z.of_nat (length l) in
  let a := slice_index len start in
  let b := from_option (slice_index len) len stop in
  take (Z.to_nat (b - a)) (drop (Z.to_nat a) l).

(** [tup[i]] for [i >= 0]. *)
Definition py_index {A} (l : list A) (i : nat) : result A :=
  match l !! i with
  | Some x => Ok x
  | None => Raise IndexError
  end.

(** [int(x / d)] for an [int] [x] of at most 32 bits and [d] a power of
    two: the quotient [x / d] is exact in binary64, and [int] truncates
    towards zero. *)
Definition int_div (x d : Z) : Z := x ÷ d.

(** ** The stream and the decoder monad *)

(** The two standard binary streams differ on a negative read length:
    [io.BytesIO.read(n)] reads to the end of the data for every [n < 0];
    the [io.BufferedReader] that [open(fn, "rb")] returns (see [from_file])
    does so for [n = -1] only and raises [ValueError] below that. *)
Inductive stream_kind := BytesIO | BufferedReader.

Record stream := Stream { kind : stream_kind; data : bytes; pos : nat }.

Definition M (A : Type) : Type := stream → result (A * stream).

#[global] Instance M_ret : MRet M := λ A a s, Ok (a, s).
#[global] Instance M_bind : MBind M := λ A B k m s,
  match m s with
  | Ok (a, s') => k a s'
  | Raise e => Raise e
  | OutOfFuel => OutOfFuel
  end.

Definition raise {A} (e : exn) : M A := λ _, Raise e.

Definition lift {A} (r : result A) : M A := λ s,
  match r with
  | Ok a => Ok (a, s)
  | Raise e => Raise e
  | OutOfFuel => OutOfFuel
  end.

(** The bytes from the cursor to the end of the data. *)
Definition remaining (s : stream) : bytes := drop (pos s) (data s).

Definition advance (n : nat) (s : stream) : stream :=
  Stream (kind s) (data s) (pos s + n).

Definition read_all : M bytes := λ s,
  let bs := remaining s in Ok (bs, advance (length bs) s).

(** [stream.read(size)]: at most [size] bytes, fewer at the end of the
    data, and never an error for a short read. *)
Definition read (size : Z) : M bytes := λ s,
  if decide (0 ≤ size) then
    let bs := take (Z.to_nat size) (remaining s) in
    Ok (bs, advance (length bs) s)
  else
    match kind s with
    | BytesIO => read_all s
    | BufferedReader =>
        if decide (size = -1) then read_all s
        else Raise (ValueError "read length must be non-negative or -1")
    end.

(** [stream.seek(offset)], called with [offset >= 0] only. *)
Definition seek (offset : Z) : M unit := λ s,
  Ok (tt, Stream (kind s) (data s) (Z.to_nat offset)).

Definition tell : M Z := λ s, Ok (Z.of_nat (pos s), s).

Definition py_assert (P : Prop) `{Decision P} (a : assertion) : M unit :=
  if decide P then mret tt else raise (AssertionError a).

(** One pass through the body of a [while] loop ends in the next pass
    ([Continue]) or leaves the loop ([Break]). *)
Inductive ctl (A : Type) := Continue (a : A) | Break (a : A).
Arguments Continue {A} a.
Arguments Break {A} a.

Fixpoint while_true {A} (fuel : nat) (body : A → M (ctl A)) (a : A) : M A :=
  match fuel with
  | O => λ _, OutOfFuel
  | S fuel' =>
      c ← body a;
      match c with
      | Continue a' => while_true fuel' body a'
      | Break a' => mret a'
      end
  end.

(** A bound on the passes of a loop that consumes input on every pass. *)
Definition input_fuel : M nat := λ s, Ok (S (length (data s)), s).

(** [d[k]] on the metadata dict. *)
Definition getitem (d : dict) (k : string) : result pyval :=
  match d !! k with
  | Some v => Ok v
  | None => Raise (KeyError (KStr k))
  end.

Fixpoint assoc {K V} `{EqDecision K} (k : K) (l : list (K * V)) : option V :=
  match l with
  | [] => None
  | (k', v) :: l' => if decide (k = k') then Some v else assoc k l'
  end.

(** ** Module constants *)

Definition _BLOCK_TYPE_DICT : gmap Z string :=
  list_to_map
    [ (0x01, "category"); (0x02, "title"); (0x03, "author"); (0x04, "year");
      (0x05, "month"); (0x06, "date"); (0x07, "book_type");
      (0x08, "publisher"); (0x09, "retailer"); (0x0b, "full_length");
      (0x83, "chapter_offsets"); (0x84, "chapter_titles_and_body");
      (0x81, "end_of_body"); (0x82, "cover"); (0x87, "page_offset");
      (0x0c, "end_of_file") ]%string.

Definition magic : bytes := [x89; x9b; x9a; xde].

(** The dict literal of line 73, [{0x01: "Novel", "0x02": "Comic"}]: its
    first key is the [int] 1, its second key is the [str] "0x02". *)
Definition category_dict : list (pykey * pystr) :=
  [ (KInt 0x01, str_lit "Novel"); (KStr "0x02", str_lit "Comic") ].

Definition category_of_byte (category_byte : Z) : result pystr :=
  match assoc (KInt category_byte) category_dict with
  | Some c => Ok c
  | None => Raise (KeyError (KInt category_byte))
  end.

Record Chapter := mkChapter { ch_title : pystr; ch_content : pystr }.

(** ** [UMDFile.read_metadata] *)

(** Lines 105-110, the chapter titles of block 0x84: one pass of
    [while stream.tell() < end]. *)
Definition titles_block (end_ : Z) (content : list pystr) : M (ctl (list pystr)) :=
  p ← tell;
  if decide (p < end_) then
    bs ← read 1;
    '(ch_title_len, _) ← lift (unpack [Fb] bs);
    title_bytes ← read ch_title_len;
    ch_title ← lift (decode_utf16le title_bytes);
    mret (Continue (content ++ [ch_title]))
  else mret (Break content).

Definition read_titles (title_len : Z) : M (list pystr) :=
  p ← tell;
  let end_ := p + title_len - 9 in
  fuel ← input_fuel;
  while_true fuel (titles_block end_) [].

(** Lines 63-114: one pass of the [while True] loop over the metadata
    blocks.  The chain of [if]/[elif] has no [else]: a tag outside it falls
    through to the next pass.  The [debug] calls format values already at
    hand and are below the logger's level. *)
Definition metadata_block (metadata : dict) : M (ctl dict) :=
  hdr ← read 3;
  '(splitter, (block_type_byte, _)) ← lift (unpack [Fc; FH] hdr);
  py_assert (splitter = [x23]) splitter_is_hash;;
  let block_type := _BLOCK_TYPE_DICT !! block_type_byte in
  if decide (block_type_byte = 0x01) then
    bs ← read 5;
    '(h1, (category_byte, (h2, _))) ← lift (unpack [Fh; Fb; Fh] bs);
    category ← lift (category_of_byte category_byte);
    mret (Continue (<["category" := VStr category]> metadata))
  else if decide (0x02 ≤ block_type_byte < 0x0a) then
    bs ← read 2;
    '(b1, (raw_length, _)) ← lift (unpack [Fb; Fb] bs);
    content_bytes ← read (raw_length - 5);
    content ← lift (decode_utf16le content_bytes);
    mret (Continue (match block_type with
                    | Some key => <[key := VStr content]> metadata
                    | None => metadata
                    end))
  else if decide (block_type_byte = 0x0b) then
    bs ← read 6;
    '(h1, (full_length, _)) ← lift (unpack [Fh; Fi] bs);
    mret (Continue (<["full_length" := VInt full_length]> metadata))
  else if decide (block_type_byte = 0x83) then
    bs ← read 15;
    '(h1, (i1, (b1, (i2, (raw_ch_no, _))))) ← lift (unpack [Fh; Fi; Fb; Fi; Fi] bs);
    py_assert (i1 = i2) i1_eq_i2;;
    let number_of_chapters := int_div (raw_ch_no - 9) 4 in
    bs ← read (4 * number_of_chapters);
    chapter_offsets ← lift (unpack_seq Fi number_of_chapters bs);
    mret (Continue (<["chapter_offsets" :=
                        VTuple ((λ x, int_div x 2) <$> chapter_offsets)]> metadata))
  else if decide (block_type_byte = 0x84) then
    bs ← read 15;
    '(h1, (i1, (b1, (i2, (title_len, _))))) ← lift (unpack [Fh; Fi; Fb; Fi; Fi] bs);
    py_assert (i1 = i2) i1_eq_i2;;
    content ← read_titles title_len;
    mret (Break (<["chapter_titles" := VList content]> metadata))
  else mret (Continue metadata).

(** [offset = None]: read from the cursor; [offset >= 0]: seek there;
    [offset < 0]: seek to the start. *)
Definition seek_offset (offset : option Z) : M unit :=
  match offset with
  | None => mret tt
  | Some o => if decide (0 ≤ o) then seek o else seek 0
  end.

(** Lines 47-120.  Line 116 formats [metadata['title']] for the logger and
    line 118 compares [metadata["category"]]: both subscripts raise
    [KeyError] on a missing key.  The warning of line 119 goes to the logger
    and changes nothing in what is returned. *)
Definition read_metadata (offset : option Z) : M (dict * Z) :=
  seek_offset offset;;
  header ← read 4;
  if decide (header ≠ magic) then raise (ValueError "Wrong File Header.") else
  fuel ← input_fuel;
  metadata ← while_true fuel metadata_block ∅;
  body_offset ← tell;
  let metadata := <["body_offset" := VInt body_offset]> metadata in
  title ← lift (getitem metadata "title");
  category ← lift (getitem metadata "category");
  p ← tell;
  mret (metadata, p).

(** Line 118, the condition under which the warning is logged. *)
Definition warns_only_novel (metadata : dict) : bool :=
  bool_decide (metadata !! "category" ≠ Some (VStr (str_lit "Novel"))).

(** ** Document assembly (lines 225-233) *)

Definition as_titles (v : pyval) : result (list pystr) :=
  match v with VList l => Ok l | _ => Raise TypeError end.

Definition as_offsets (v : pyval) : result (list Z) :=
  match v with VTuple l => Ok l | _ => Raise TypeError end.

(** The body of the [for i, ch_title in enumerate(...)] loop, on the titles
    still to visit. *)
Fixpoint chapters_loop (metadata : dict) (content : pystr) (i : nat)
    (titles : list pystr) (ch_list : list Chapter) : result (list Chapter) :=
  match titles with
  | [] => Ok ch_list
  | ch_title :: titles' =>
      offsets ← getitem metadata "chapter_offsets" ≫= as_offsets;
      ch_content ←
        (if decide (i + 1 = length offsets)%nat then
           a ← py_index offsets i;
           Ok (py_slice content a None)
         else
           a ← py_index offsets i;
           b ← py_index offsets (i + 1);
           Ok (py_slice content a (Some b)));
      chapters_loop metadata content (S i) titles'
        (ch_list ++ [mkChapter ch_title ch_content])
  end.

Definition build_chapters (metadata : dict) (content : pystr) : result (list Chapter) :=
  titles ← getitem metadata "chapter_titles" ≫= as_titles;
  chapters_loop metadata content 0 titles [].

(** The object [UMDFile(chapters=ch_list, **metadata)] builds: the named
    parameters of [__init__] take their keys from the dict, the other keys
    stay in [self.metadata]. *)
Record UMDFile := mkUMDFile {
  title : option pyval;
  author : option pyval;
  category : option pyval;
  publish_date : option pyval;
  publisher : option pyval;
  retailer : option pyval;
  cover : option pyval;
  chapters : list Chapter;
  metadata_rest : dict
}.

Definition init_params : list string :=
  ["title"; "author"; "category"; "publish_date"; "publisher"; "retailer";
   "cover"]%string.

Definition new_UMDFile (ch_list : list Chapter) (metadata : dict) : result UMDFile :=
  if decide (is_Some (metadata !! "chapters")) then Raise TypeError
  else Ok {| title := metadata !! "title";
             author := metadata !! "author";
             category := metadata !! "category";
             publish_date := metadata !! "publish_date";
             publisher := metadata !! "publisher";
             retailer := metadata !! "retailer";
             cover := metadata !! "cover";
             chapters := ch_list;
             metadata_rest := foldr delete metadata init_params |}.

(** ** [UMDFile.read_content], [UMDFile.read_cover], [UMDFile.from_stream] *)

(** The variables of the content loop: the framing byte read last, the
    sequence indices and the decompressed payloads collected so far. *)
Record content_state := mkContentState {
  splitter : bytes;
  rnd_lst : list Z;
  content_list : list bytes
}.

Section Decoder.

(** [zlib.decompress]; [None] stands for [zlib.error]. *)
Variable zlib_decompress : bytes → option bytes.

Definition decompress (block : bytes) : result bytes :=
  match zlib_decompress block with
  | Some payload => Ok payload
  | None => Raise ZlibError
  end.

(** Lines 138-161: one pass of the [while True] loop over the body
    records.  A framing byte that is neither ['#'] nor ['$'] (the end of the
    data included, where [read(1)] gives [b""]) matches no branch: the pass
    reads nothing and changes nothing. *)
Definition content_block (st : content_state) : M (ctl content_state) :=
  if decide (splitter st = [x23]) then
    bs ← read 2;
    '(end_type, _) ← lift (unpack [Fh] bs);
    if decide (end_type = 0x81) then mret (Break st)
    else
      (if decide (end_type = 0xf1) then
         bs ← read 18;
         _ ← lift (unpack (Fh :: replicate 16 Fc) bs);
         mret tt
       else if decide (end_type = 0x0a) then
         bs ← read 6;
         _ ← lift (unpack [Fh; Fi] bs);
         mret tt
       else mret tt);;
      splitter' ← read 1;
      mret (Continue (mkContentState splitter' (rnd_lst st) (content_list st)))
  else if decide (splitter st = [x24]) then
    bs ← read 8;
    '(i, (raw_block_length, _)) ← lift (unpack [Fi; Fi] bs);
    block ← read (raw_block_length - 9);
    payload ← lift (decompress block);
    splitter' ← read 1;
    mret (Continue (mkContentState splitter' (rnd_lst st ++ [i])
                      (content_list st ++ [payload])))
  else mret (Continue st).

(** Lines 165-169: the trailer after the end-of-body marker, the check of
    the collected indices against it, and the decoding of the body. *)
Definition read_trailer (st : content_state) : M pystr :=
  bs ← read 15;
  '(h, (i1, (b, (i2, (raw_n_block, _))))) ← lift (unpack [Fh; Fi; Fb; Fi; Fi] bs);
  let number_of_blocks := int_div (raw_n_block - 9) 4 in
  bs ← read (4 * number_of_blocks);
  rnd_lst2 ← lift (unpack_seq Fi number_of_blocks bs);
  py_assert (rnd_lst st = rnd_lst2) rnd_lst_eq;;
  lift (decode_utf16le (concat (content_list st))).

(** Lines 127-171.  The loop has no bound of its own: [fuel] bounds the
    number of passes the model runs. *)
Definition read_content (fuel : nat) (offset : option Z) : M (pystr * Z) :=
  match offset with
  | None => mret tt
  | Some o =>
      if decide (0 ≤ o) then seek o
      else '(_, offset') ← read_metadata (Some (-1)); seek offset'
  end;;
  splitter0 ← read 1;
  st ← while_true fuel content_block (mkContentState splitter0 [] []);
  content ← read_trailer st;
  p ← tell;
  mret (content, p).

(** Lines 178-198. *)
Definition read_cover (fuel : nat) (offset : option Z) : M (option bytes * Z) :=
  match offset with
  | None => mret tt
  | Some o =>
      if decide (0 ≤ o) then seek o
      else '(_, offset') ← read_content fuel (Some (-1)); seek offset'
  end;;
  splitter0 ← read 1;
  cover ←
    (if decide (splitter0 = []) then mret None
     else
       bs ← read 2;
       '(next_type, _) ← lift (unpack [Fh] bs);
       if decide (next_type = 0x82) then
         bs ← read 16;
         '(b1, (b2, (b3, (i1, (b4, (i2, (raw_cover_length, _))))))) ←
           lift (unpack [Fb; Fb; Fb; Fi; Fb; Fi; Fi] bs);
         c ← read (raw_cover_length - 9);
         mret (Some c)
       else mret None);
  p ← tell;
  mret (cover, p).

(** Lines 222-233.  The cover that was read is not handed to the
    constructor. *)
Definition from_stream (fuel : nat) : M UMDFile :=
  '(metadata, offset1) ← read_metadata None;
  '(content, offset2) ← read_content fuel (Some offset1);
  '(cover, _) ← read_cover fuel (Some offset2);
  ch_list ← lift (build_chapters metadata content);
  lift (new_UMDFile ch_list metadata).

End Decoder.

(** ** A fragment of [zlib.decompress], to run the decoder on concrete streams

    [zlib_stored] inflates the zlib streams whose deflate blocks are all
    stored (uncompressed) blocks, which is what [zlib.compress(data, 0)]
    writes, and checks the Adler-32 trailer.  Every other input, a stream
    with Huffman-coded blocks included, is outside the fragment and answers
    [None]. *)

Definition adler32 (bs : bytes) : Z :=
  let '(a, b) :=
    foldl (λ '(a, b) x,
             let a' := (a + byte_to_Z x) mod 65521 in (a', (b + a') mod 65521))
          (1, 0) bs in
  b * 65536 + a.

Fixpoint inflate_stored (fuel : nat) (bs out : bytes) : option (bytes * bytes) :=
  match fuel, bs with
  | S fuel', hd :: l0 :: l1 :: n0 :: n1 :: rest =>
      let len := le_uint [l0; l1] in
      if decide ((hd = x00 ∨ hd = x01) ∧ len + le_uint [n0; n1] = 0xFFFF
                 ∧ (Z.to_nat len ≤ length rest)%nat) then
        let out' := out ++ take (Z.to_nat len) rest in
        let rest' := drop (Z.to_nat len) rest in
        if decide (hd = x01) then Some (out', rest')
        else inflate_stored fuel' rest' out'
      else None
  | _, _ => None
  end.

Definition zlib_stored (bs : bytes) : option bytes :=
  match bs with
  | cmf :: flg :: rest =>
      if decide (cmf = x78 ∧ (0x7800 + byte_to_Z flg) mod 31 = 0
                 ∧ Z.land (byte_to_Z flg) 0x20 = 0) then
        '(out, tail) ← inflate_stored (length rest) rest [];
        if decide (length tail = 4%nat ∧ le_uint (reverse tail) = adler32 out)
        then Some out else None
      else None
  | _ => None
  end.

(** ** The writer's side of the format

    The claims on well-formed input speak of what a block encodes.
    [le_bytes] is [struct.pack] for the little-endian integer codes (two's
    complement on [n] bytes), and [body_record] lists the records of the
    body in the order they lie in the stream. *)

Fixpoint le_bytes (n : nat) (x : Z) : bytes :=
  match n with
  | O => []
  | S n' => byte_of_Z x :: le_bytes n' (x / 256)
  end.

Definition int_range (bits : Z) (x : Z) : Prop :=
  - 2 ^ (bits - 1) ≤ x < 2 ^ (bits - 1).

Definition pack_seq_i (xs : list Z) : bytes := xs ≫= le_bytes 4.

Inductive body_record :=
| Control (end_type : Z) (payload : bytes)   (* '#', 16-bit sub-type, payload *)
| Segment (i : Z) (block : bytes).           (* '$', index, length + 9, block *)

Definition encode_record (r : body_record) : bytes :=
  match r with
  | Control end_type payload => x23 :: le_bytes 2 end_type ++ payload
  | Segment i block =>
      x24 :: le_bytes 4 i ++ le_bytes 4 (Z.of_nat (length block) + 9) ++ block
  end.

(** The payload the decoder skips after a control record. *)
Definition control_payload_size (end_type : Z) : nat :=
  if decide (end_type = 0xf1) then 18%nat
  else if decide (end_type = 0x0a) then 6%nat
  else 0%nat.

Definition segment_indices (rs : list body_record) : list Z :=
  rs ≫= λ r, match r with Segment i _ => [i] | Control _ _ => [] end.

Definition segment_blocks (rs : list body_record) : list bytes :=
  rs ≫= λ r, match r with Segment _ block => [block] | Control _ _ => [] end.

Definition end_of_body : bytes := [x23; x81; x00].

Definition encode_body (rs : list body_record) : bytes := rs ≫= encode_record.

(** A record the format allows before the end-of-body marker: a control
    record other than the marker with the payload of its sub-type, or a
    segment whose index and encoded length fit their 32-bit fields. *)
Definition wf_record (r : body_record) : Prop :=
  match r with
  | Control end_type payload =>
      int_range 16 end_type ∧ end_type ≠ 0x81
      ∧ length payload = control_payload_size end_type
  | Segment i block =>
      int_range 32 i ∧ int_range 32 (Z.of_nat (length block) + 9)
  end.

(** ** Concrete streams

    The scenario of a one-chapter novel: category Novel, title "T", author
    "A", full length 5, chapter offsets (0), chapter titles ["Chapter 1"],
    one segment with index 1 holding "Hello", the end-of-body marker and
    its trailer. *)

Definition category_novel_block : bytes :=
  [x23; x01; x00; x00; x08; x01; xb1; x0c].

Definition category_comic_block : bytes :=
  [x23; x01; x00; x00; x08; x02; xb1; x0c].

Definition title_block : bytes := [x23; x02; x00; x00; x07; x54; x00].

Definition author_block : bytes := [x23; x03; x00; x00; x07; x41; x00].

Definition full_length_block : bytes :=
  [x23; x0b; x00; x00; x09; x05; x00; x00; x00].

Definition chapter_offsets_block : bytes :=
  [x23; x83; x00; x01; x09; xb0; x39; x00; x00; x24; xb0; x39; x00; x00;
   x0d; x00; x00; x00; x00; x00; x00; x00].

Definition chapter_titles_block : bytes :=
  [x23; x84; x00; x01; x09; x02; x4c; x00; x00; x24; x02; x4c; x00; x00;
   x1c; x00; x00; x00;
   x12; x43; x00; x68; x00; x61; x00; x70; x00; x74; x00; x65; x00; x72; x00;
   x20; x00; x31; x00].

(** [zlib.compress("Hello".encode("utf-16-le"), 0)] *)
Definition hello_block : bytes :=
  [x78; x01; x01; x0a; x00; xf5; xff;
   x48; x00; x65; x00; x6c; x00; x6c; x00; x6f; x00;
   x0b; x18; x01; xf5].

Definition hello_segment : bytes :=
  [x24; x01; x00; x00; x00; x1e; x00; x00; x00] ++ hello_block.

Definition trailer_header : bytes :=
  [x01; x09; x13; x23; x00; x00; x24; x13; x23; x00; x00; x0d; x00; x00; x00].

Definition sample_metadata : bytes :=
  magic ++ category_novel_block ++ title_block ++ author_block
    ++ full_length_block ++ chapter_offsets_block ++ chapter_titles_block.

Definition sample_body : bytes :=
  hello_segment ++ end_of_body ++ trailer_header ++ [x01; x00; x00; x00].

Definition sample_umd : bytes := sample_metadata ++ sample_body.

(** The same novel marked as a comic: category byte 2. *)
Definition comic_umd : bytes :=
  magic ++ category_comic_block ++ title_block ++ author_block
    ++ full_length_block ++ chapter_offsets_block ++ chapter_titles_block
    ++ sample_body.

(** A record with the tag 0x0c, which the metadata loop has no branch for,
    in front of the title. *)
Definition unknown_tag_umd : bytes :=
  magic ++ category_novel_block ++ [x23; x0c; x00] ++ title_block
    ++ author_block ++ full_length_block ++ chapter_offsets_block
    ++ chapter_titles_block ++ sample_body.

(** The file cut off after its only segment: the end-of-body marker and
    the trailer are missing. *)
Definition truncated_umd : bytes := sample_metadata ++ hello_segment.

(** The trailer lists index 2 where the segment read has index 1. *)
Definition wrong_trailer_umd : bytes :=
  sample_metadata ++ hello_segment ++ end_of_body ++ trailer_header
    ++ [x02; x00; x00; x00].

(** A cover record of three image bytes after the body. *)
Definition cover_block : bytes :=
  [x23; x82; x00; x01; x0a; x00; x13; x23; x00; x00; x24; x13; x23; x00; x00;
   x0c; x00; x00; x00; xff; xd8; xff].

Definition cover_umd : bytes := sample_umd ++ cover_block.

Definition novel : pystr := str_lit "Novel".

Definition sample_dict : dict :=
  <["chapter_titles" := VList [str_lit "A"]]>
    (<["chapter_offsets" := VTuple [0; 2]]> ∅).

Definition sample_metadata_dict : dict :=
  <["body_offset" := VInt 94]>
    (<["chapter_titles" := VList [str_lit "Chapter 1"]]>
      (<["chapter_offsets" := VTuple [0]]>
        (<["full_length" := VInt 5]>
          (<["author" := VStr (str_lit "A")]>
            (<["title" := VStr (str_lit "T")]>
              (<["category" := VStr novel]> ∅)))))).

(** The sample with the second copy of each 32-bit pair changed in the
    trailer ([13 23 00 00] against [14 23 00 00]) and in the cover record. *)
Definition mismatched_trailer_header : bytes :=
  [x01; x09; x13; x23; x00; x00; x24; x14; x23; x00; x00; x0d; x00; x00; x00].

Definition mismatched_cover_block : bytes :=
  [x23; x82; x00; x01; x0a; x00; x13; x23; x00; x00; x24; x14; x23; x00; x00;
   x0c; x00; x00; x00; xff; xd8; xff].

Definition mismatched_pairs_umd : bytes :=
  sample_metadata ++ hello_segment ++ end_of_body ++ mismatched_trailer_header
    ++ [x01; x00; x00; x00] ++ mismatched_cover_block.

(** A chapter-offsets block whose copies differ ([b0 39 00 00] against
    [b1 39 00 00]). *)
Definition mismatched_offsets_block : bytes :=
  [x23; x83; x00; x01; x09; xb0; x39; x00; x00; x24; xb1; x39; x00; x00;
   x0d; x00; x00; x00; x00; x00; x00; x00].

Definition sample_chapters : list Chapter :=
  [mkChapter (str_lit "Chapter 1") (str_lit "Hello")].

Definition sample_document : UMDFile :=
  {| title := Some (VStr (str_lit "T"));
     author := Some (VStr (str_lit "A"));
     category := Some (VStr novel);
     publish_date := None;
     publisher := None;
     retailer := None;
     cover := None;
     chapters := sample_chapters;
     metadata_rest :=
       <["body_offset" := VInt 94]>
         (<["chapter_titles" := VList [str_lit "Chapter 1"]]>
           (<["chapter_offsets" := VTuple [0]]>
             (<["full_length" := VInt 5]> ∅))) |}.

(** A body of two segments whose indices are not in ascending order: index
    7 holds "He", index 3 holds "llo", with a control record of sub-type
    0x0a between them.  The blocks are [zlib.compress(..., 0)] of the
    UTF-16LE text. *)
Definition he_block : bytes :=
  [x78; x01; x01; x04; x00; xfb; xff; x48; x00; x65; x00; x01; xee; x00; xae].

Definition llo_block : bytes :=
  [x78; x01; x01; x06; x00; xf9; xff; x6c; x00; x6c; x00; x6f; x00;
   x05; x1c; x01; x48].

Definition two_segment_records : list body_record :=
  [Segment 7 he_block; Control 0x0a [x00; x00; x05; x00; x00; x00];
   Segment 3 llo_block].

Definition two_segment_trailer_header : bytes :=
  [x01; x09; x13; x23; x00; x00; x24; x13; x23; x00; x00; x11; x00; x00; x00].

Definition two_segment_body : bytes :=
  encode_body two_segment_records ++ end_of_body
    ++ two_segment_trailer_header ++ pack_seq_i [7; 3] ++ [].

(** The same body with the two indices of the trailer exchanged. *)
Definition swapped_trailer_body : bytes :=
  encode_body two_segment_records ++ end_of_body
    ++ two_segment_trailer_header ++ pack_seq_i [3; 7] ++ [].

Definition two_chapter_dict : dict :=
  <["chapter_titles" := VList [str_lit "A"; str_lit "B"]]>
    (<["chapter_offsets" := VTuple [0; 2]]> ∅).

Definition long_titles_dict : dict :=
  <["chapter_titles" := VList [str_lit "A"; str_lit "B"]]>
    (<["chapter_offsets" := VTuple [0]]> ∅).

(** ** Predicates used in the proofs *)

(** [wp m Q s]: run on [s], [m] does not run out of fuel, and if it
    returns, its value and the stream it leaves satisfy [Q]. *)
Definition wp {A} (m : M A) (Q : A → stream → Prop) (s : stream) : Prop :=
  match m s with
  | Ok (a, s') => Q a s'
  | Raise _ => True
  | OutOfFuel => False
  end.

(** What a read leaves of the input. *)
Definition left_after (n : nat) (s s' : stream) : Prop :=
  (length (remaining s') + n = length (remaining s))%nat.

(** The category of a metadata dict, when set, is "Novel". *)
Definition category_ok (metadata : dict) : Prop :=
  ∀ v, metadata !! "category" = Some v → v = VStr novel.

(** ** What a decoded metadata dict holds *)

Definition text_keys : list string :=
  ["title"; "author"; "year"; "month"; "date"; "book_type"; "publisher";
   "retailer"]%string.

(** An entry the metadata loop can have written: a text under one of the
    eight text keys, "Novel" under [category], an [int] under
    [full_length] or [body_offset], the tuple of offsets, the list of
    titles. *)
Definition entry_ok (k : string) (v : pyval) : Prop :=
  match v with
  | VStr s => k ∈ text_keys ∨ (k = "category" ∧ s = novel)
  | VInt _ => k = "full_length" ∨ k = "body_offset"
  | VTuple _ => k = "chapter_offsets"
  | VList _ => k = "chapter_titles"
  end.

Definition metadata_ok (metadata : dict) : Prop :=
  ∀ k v, metadata !! k = Some v → entry_ok k v.

(** * Properties *)

(** ** Integers and their little-endian encodings *)

Lemma byte_to_Z_range b : 0 ≤ byte_to_Z b < 256.
Proof. unfold byte_to_Z. pose proof (Byte.to_N_bounded b). lia. Qed.

Lemma byte_to_of_Z z : byte_to_Z (byte_of_Z z) = z mod 256.
Proof.
  unfold byte_to_Z, byte_of_Z.
  assert (Hr : 0 ≤ z mod 256 < 256) by (apply Z.mod_pos_bound; lia).
  destruct (Byte.of_N (Z.to_N (z mod 256))) as [b|] eqn:E.
  - apply Byte.to_of_N in E. simpl. rewrite E. lia.
  - apply Byte.of_N_None_iff in E. lia.
Qed.

Lemma length_le_bytes n x : length (le_bytes n x) = n.
Proof. revert x. induction n; intros; simpl; auto. Qed.

Lemma le_uint_le_bytes n x : le_uint (le_bytes n x) = x mod 256 ^ Z.of_nat n.
Proof.
  revert x. induction n as [|n IH]; intros x.
  - simpl. by rewrite Z.mod_1_r.
  - cbn [le_bytes le_uint foldr]. fold (le_uint (le_bytes n (x / 256))).
    rewrite IH, byte_to_of_Z, Nat2Z.inj_succ, Z.pow_succ_r by lia.
    rewrite Z.rem_mul_r by lia. reflexivity.
Qed.

Lemma to_signed_mod bits x :
  0 < bits → int_range bits x → to_signed bits (x mod 2 ^ bits) = x.
Proof.
  unfold int_range, to_signed. intros Hb [Hlo Hhi].
  assert (E : 2 ^ bits = 2 * 2 ^ (bits - 1)).
  { replace bits with (Z.succ (bits - 1)) at 1 by lia. apply Z.pow_succ_r. lia. }
  assert (0 < 2 ^ (bits - 1)) by (apply Z.pow_pos_nonneg; lia).
  destruct (decide (0 ≤ x)).
  - rewrite Z.mod_small by lia. case_decide; lia.
  - replace (x mod 2 ^ bits) with (x + 2 ^ bits).
    + case_decide; lia.
    + symmetry. rewrite <- (Z.mod_add _ 1) by lia. rewrite Z.mod_small; lia.
Qed.

Lemma decode_le_bytes_i x :
  int_range 32 x → decode_item Fi (le_bytes 4 x) = x.
Proof.
  intros. cbn [decode_item]. rewrite le_uint_le_bytes.
  by apply (to_signed_mod 32).
Qed.

Lemma decode_le_bytes_h x :
  int_range 16 x → decode_item Fh (le_bytes 2 x) = x.
Proof.
  intros. cbn [decode_item]. rewrite le_uint_le_bytes.
  by apply (to_signed_mod 16).
Qed.

Lemma length_pack_seq_i xs : length (pack_seq_i xs) = (length xs * 4)%nat.
Proof.
  unfold pack_seq_i. induction xs as [|x xs IH]; [done|].
  cbn [mbind list_bind]. rewrite length_app, length_le_bytes.
  cbn [length]. lia.
Qed.

Lemma unpack_items_seq_pack xs rest :
  Forall (int_range 32) xs →
  unpack_items_seq Fi (length xs) (pack_seq_i xs ++ rest) = xs.
Proof.
  induction 1 as [|x xs Hx _ IH]; [done|].
  unfold pack_seq_i. cbn [length unpack_items_seq mbind list_bind item_size].
  rewrite <- app_assoc.
  rewrite take_app_length' by (by rewrite length_le_bytes).
  rewrite drop_app_length' by (by rewrite length_le_bytes).
  f_equal; [by apply decode_le_bytes_i | apply IH].
Qed.

Lemma unpack_seq_pack xs n :
  Forall (int_range 32) xs → n = Z.of_nat (length xs) →
  unpack_seq Fi n (pack_seq_i xs) = Ok xs.
Proof.
  intros Hxs ->. unfold unpack_seq. rewrite Nat2Z.id.
  rewrite decide_True by (by rewrite length_pack_seq_i).
  rewrite <- (app_nil_r (pack_seq_i xs)). by rewrite unpack_items_seq_pack.
Qed.

Lemma unpack_ok fs bs :
  length bs = calcsize fs → unpack fs bs = Ok (unpack_items fs bs).
Proof. intros. unfold unpack. by rewrite decide_True. Qed.

Lemma unpack_length fs bs v : unpack fs bs = Ok v → length bs = calcsize fs.
Proof. unfold unpack. by case_decide. Qed.

(** ** Running the decoder monad *)

Lemma bind_ok {A B} (m : M A) (k : A → M B) s a s' :
  m s = Ok (a, s') → (m ≫= k) s = k a s'.
Proof. unfold mbind, M_bind. by intros ->. Qed.

Lemma bind_raise {A B} (m : M A) (k : A → M B) s e :
  m s = Raise e → (m ≫= k) s = Raise e.
Proof. unfold mbind, M_bind. by intros ->. Qed.

Lemma lift_ok {A} (r : result A) a s : r = Ok a → lift r s = Ok (a, s).
Proof. by intros ->. Qed.

Lemma lift_raise {A} (r : result A) e s : r = Raise e → lift r s = Raise e.
Proof. by intros ->. Qed.

Lemma py_assert_true P `{Decision P} a s : P → py_assert P a s = Ok (tt, s).
Proof. intros. unfold py_assert. by rewrite decide_True. Qed.

Lemma py_assert_false P `{Decision P} a s :
  ¬ P → py_assert P a s = Raise (AssertionError a).
Proof. intros. unfold py_assert. by rewrite decide_False. Qed.

Lemma remaining_advance n s : remaining (advance n s) = drop n (remaining s).
Proof. unfold remaining, advance. simpl. by rewrite drop_drop. Qed.

Lemma advance_advance n m s : advance m (advance n s) = advance (n + m) s.
Proof. unfold advance. simpl. f_equal. lia. Qed.

Lemma advance_0 s : advance 0 s = s.
Proof. destruct s. unfold advance. simpl. f_equal. lia. Qed.

Lemma read_app n bs rest s :
  remaining s = bs ++ rest → n = Z.of_nat (length bs) →
  read n s = Ok (bs, advance (length bs) s).
Proof.
  intros Hrem ->. unfold read. rewrite decide_True by lia.
  by rewrite Hrem, Nat2Z.id, take_app_length.
Qed.

Lemma remaining_read bs rest s :
  remaining s = bs ++ rest → remaining (advance (length bs) s) = rest.
Proof. intros Hrem. by rewrite remaining_advance, Hrem, drop_app_length. Qed.

(** Symbolic execution of one [read] / [struct.unpack] of the source. *)
Ltac run_read H :=
  rewrite (bind_ok _ _ _ _ _ (read_app _ _ _ _ H eq_refl)).

Ltac run_unpack :=
  match goal with
  | |- context [lift (unpack ?fs ?bs)] =>
      rewrite (bind_ok _ _ _ _ _ (lift_ok _ _ _ (unpack_ok fs bs eq_refl)))
  end;
  cbn [unpack_items decode_item item_size firstn skipn].

Ltac run_assert H :=
  rewrite (bind_ok _ _ _ _ _ (py_assert_true _ _ _ H)).

(** ** The metadata loop, block by block *)

(** C3 (as amended).  A record whose tag is none of 0x01, 0x02-0x09, 0x0b,
    0x83, 0x84 raises nothing: the pass consumes the framing byte and the
    tag, leaves the metadata as it is, and the loop goes on with the next
    record. *)
Theorem unrecognized_tag_is_skipped
    (metadata : dict) (s : stream) (t0 t1 : byte) (rest : bytes) :
  let tag := le_uint [t0; t1] in
  remaining s = [x23; t0; t1] ++ rest →
  tag ≠ 0x01 → ¬ (0x02 ≤ tag < 0x0a) → tag ≠ 0x0b → tag ≠ 0x83 → tag ≠ 0x84 →
  metadata_block metadata s = Ok (Continue metadata, advance 3 s).
Proof.
  intros tag Hrem H1 H2 H3 H4 H5. unfold metadata_block.
  run_read Hrem. run_unpack. fold tag.
  run_assert (eq_refl [x23]).
  rewrite !decide_False by done. reflexivity.
Qed.

Lemma unrecognized_tag_is_skipped_witness :
  metadata_block (<["category" := VStr novel]> ∅)
      (Stream BufferedReader unknown_tag_umd 12)
    = Ok (Continue (<["category" := VStr novel]> ∅),
          Stream BufferedReader unknown_tag_umd 15).
Proof.
  apply (unrecognized_tag_is_skipped _ (Stream BufferedReader unknown_tag_umd 12)
           x0c x00 (drop 15 unknown_tag_umd));
    vm_compute; first [reflexivity | congruence | intros [? ?]; congruence].
Defined.

(** C3, the claim as stated refuted: the stream [unknown_tag_umd] holds a
    record with the tag 0x0c between the category and the title, and
    [read_metadata] returns the metadata of the sample all the same. *)
Lemma unrecognized_tag_no_error :
  read_metadata None (Stream BufferedReader unknown_tag_umd 0)
    = Ok (<["body_offset" := VInt 97]> sample_metadata_dict, 97,
          Stream BufferedReader unknown_tag_umd 97).
Proof. vm_compute. reflexivity. Qed.

Lemma tag_x83 : le_uint [x83; x00] = 0x83.
Proof. reflexivity. Qed.

Lemma tag_x84 : le_uint [x84; x00] = 0x84.
Proof. reflexivity. Qed.

Lemma tag_x01 : le_uint [x01; x00] = 0x01.
Proof. reflexivity. Qed.

(** The 15-byte header shared by the blocks 0x83 and 0x84 and by the
    trailer, read at the cursor. *)
Lemma read_header15 {B} (k : bytes → M B) s hdr rest v :
  remaining s = hdr ++ rest →
  unpack [Fh; Fi; Fb; Fi; Fi] hdr = Ok v →
  (read 15 ≫= k) s = k hdr (advance 15 s).
Proof.
  intros Hrem Hun. apply unpack_length in Hun.
  rewrite (bind_ok _ _ _ _ _ (read_app 15 hdr rest s Hrem ltac:(rewrite Hun; done))).
  by rewrite Hun.
Qed.

(** C2 (as amended).  In the chapter-offsets block 0x83 and in the
    chapter-titles block 0x84 the two 32-bit copies [i1] and [i2] of the
    header are compared, and the decoder raises the assertion failure when
    they differ.  The two 16-bit values around the category byte of block
    0x01 are read and not compared: whatever they are, the category is
    decoded and the loop goes on. *)
Theorem redundant_pair_checked_in_offsets_and_titles :
  (∀ (metadata : dict) (s : stream) (t0 : byte) (hdr rest : bytes)
     (h1 i1 b1 i2 raw : Z),
     t0 = x83 ∨ t0 = x84 →
     remaining s = [x23; t0; x00] ++ hdr ++ rest →
     unpack [Fh; Fi; Fb; Fi; Fi] hdr = Ok (h1, (i1, (b1, (i2, (raw, tt))))) →
     i1 ≠ i2 →
     metadata_block metadata s = Raise (AssertionError i1_eq_i2))
  ∧
  (∀ (metadata : dict) (s : stream) (h1 h2 rest : bytes),
     length h1 = 2%nat → length h2 = 2%nat →
     remaining s = [x23; x01; x00] ++ (h1 ++ [x01] ++ h2) ++ rest →
     metadata_block metadata s
       = Ok (Continue (<["category" := VStr novel]> metadata), advance 8 s)).
Proof.
  split.
  - intros metadata s t0 hdr rest h1 i1 b1 i2 raw Ht Hrem Hun Hne.
    unfold metadata_block. run_read Hrem. run_unpack.
    run_assert (eq_refl [x23]).
    pose proof (remaining_read _ _ _ Hrem) as Hrem'. cbn [length] in *.
    destruct Ht as [-> | ->].
    + rewrite tag_x83. rewrite !decide_False by lia. rewrite decide_True by done.
      rewrite (read_header15 _ _ _ _ _ Hrem' Hun).
      rewrite (bind_ok _ _ _ _ _ (lift_ok _ _ _ Hun)). cbn beta iota.
      apply bind_raise. by apply py_assert_false.
    + rewrite tag_x84. rewrite !decide_False by lia. rewrite decide_True by done.
      rewrite (read_header15 _ _ _ _ _ Hrem' Hun).
      rewrite (bind_ok _ _ _ _ _ (lift_ok _ _ _ Hun)). cbn beta iota.
      apply bind_raise. by apply py_assert_false.
  - intros metadata s h1 h2 rest Hh1 Hh2 Hrem.
    destruct h1 as [|a0 [|a1 [|? ?]]]; try done.
    destruct h2 as [|c0 [|c1 [|? ?]]]; try done.
    unfold metadata_block. run_read Hrem. run_unpack.
    run_assert (eq_refl [x23]).
    pose proof (remaining_read _ _ _ Hrem) as Hrem'. cbn [length] in *.
    rewrite tag_x01. rewrite decide_True by done.
    run_read Hrem'. run_unpack.
    rewrite (bind_ok _ _ _ _ _ (lift_ok _ (str_lit "Novel") _ eq_refl)).
    cbn [length]. rewrite advance_advance. reflexivity.
Qed.

Lemma redundant_pair_checked_in_offsets_and_titles_witness :
  metadata_block ∅ (Stream BufferedReader mismatched_offsets_block 0)
    = Raise (AssertionError i1_eq_i2)
  ∧ metadata_block ∅ (Stream BufferedReader sample_umd 4)
    = Ok (Continue (<["category" := VStr novel]> ∅),
          Stream BufferedReader sample_umd 12).
Proof.
  destruct redundant_pair_checked_in_offsets_and_titles as [Hpair Hcat].
  split.
  - apply (Hpair ∅ (Stream BufferedReader mismatched_offsets_block 0) x83
             (take 15 (drop 3 mismatched_offsets_block))
             (drop 18 mismatched_offsets_block) 2305 14768 36 14769 13);
      [by left | reflexivity | reflexivity | congruence].
  - apply (Hcat ∅ (Stream BufferedReader sample_umd 4) [x00; x08] [xb1; x0c]
             (drop 12 sample_umd)); reflexivity.
Defined.

(** C2, the claim as stated refuted on [mismatched_pairs_umd].  The 16-bit
    values of its category block differ (0x0800 and 0x0cb1, the bytes of
    the layout comment in the source), the two 32-bit copies differ in its
    trailer and in its cover record, and the three decoders and the
    assembly go through without an exception. *)
Lemma mismatched_pairs_accepted :
  unpack [Fh; Fb; Fh] (drop 3 category_novel_block) = Ok (2048, (1, (3249, tt)))
  ∧ unpack [Fh; Fi; Fb; Fi; Fi] mismatched_trailer_header
      = Ok (2305, (8979, (36, (8980, (13, tt)))))
  ∧ unpack [Fb; Fb; Fb; Fi; Fb; Fi; Fi] (take 16 (drop 3 mismatched_cover_block))
      = Ok (1, (10, (0, (8979, (36, (8980, (12, tt)))))))
  ∧ read_metadata None (Stream BufferedReader mismatched_pairs_umd 0)
      = Ok (sample_metadata_dict, 94, Stream BufferedReader mismatched_pairs_umd 94)
  ∧ read_content zlib_stored 2 (Some 94) (Stream BufferedReader mismatched_pairs_umd 94)
      = Ok (str_lit "Hello", 146, Stream BufferedReader mismatched_pairs_umd 146)
  ∧ read_cover zlib_stored 2 (Some 146) (Stream BufferedReader mismatched_pairs_umd 146)
      = Ok (Some [xff; xd8; xff], 168, Stream BufferedReader mismatched_pairs_umd 168)
  ∧ from_stream zlib_stored 2 (Stream BufferedReader mismatched_pairs_umd 0)
      = Ok (sample_document, Stream BufferedReader mismatched_pairs_umd 168).
Proof. repeat split; vm_compute; reflexivity. Qed.

Lemma advance_eq n m s : n = m → advance n s = advance m s.
Proof. by intros ->. Qed.



(** ** Outcomes of a computation: a weakest precondition *)

Lemma wp_bind {A B} (m : M A) (k : A → M B) Q s :
  wp m (λ a s', wp (k a) Q s') s → wp (m ≫= k) Q s.
Proof.
  unfold wp, mbind, M_bind. destruct (m s) as [[a s']| |]; auto.
Qed.

Lemma wp_ret {A} (a : A) (Q : A → stream → Prop) s : Q a s → wp (mret a) Q s.
Proof. done. Qed.

Lemma wp_raise {A} e (Q : A → stream → Prop) s : wp (raise e) Q s.
Proof. done. Qed.

Lemma wp_mono {A} (m : M A) (Q Q' : A → stream → Prop) s :
  (∀ a s', Q a s' → Q' a s') → wp m Q s → wp m Q' s.
Proof. unfold wp. destruct (m s) as [[a s']| |]; auto. Qed.

Lemma wp_ok {A} (m : M A) Q s a s' : wp m Q s → m s = Ok (a, s') → Q a s'.
Proof. unfold wp. intros H E. by rewrite E in H. Qed.

Lemma wp_total {A} (m : M A) Q s : wp m Q s → m s ≠ OutOfFuel.
Proof. unfold wp. by destruct (m s) as [[a s']| |]. Qed.

Lemma left_after_advance n s :
  (n ≤ length (remaining s))%nat → left_after n s (advance n s).
Proof.
  intros. unfold left_after. rewrite remaining_advance, length_drop. lia.
Qed.

Lemma wp_read_all (Q : bytes → stream → Prop) s :
  (∀ bs s', left_after (length bs) s s' → Q bs s') → wp read_all Q s.
Proof.
  intros HQ. unfold wp, read_all. apply HQ. by apply left_after_advance.
Qed.

Lemma wp_read n (Q : bytes → stream → Prop) s :
  (∀ bs s', (Z.of_nat (length bs) ≤ Z.max 0 n ∨ n < 0) →
            left_after (length bs) s s' → Q bs s') →
  wp (read n) Q s.
Proof.
  intros HQ. unfold wp, read. case_decide.
  - apply HQ.
    + left. rewrite length_take. lia.
    + apply left_after_advance. rewrite length_take. lia.
  - destruct (kind s); [|case_decide]; try done;
      (apply HQ; [lia | by apply left_after_advance]).
Qed.

Lemma wp_tell (Q : Z → stream → Prop) s : Q (Z.of_nat (pos s)) s → wp tell Q s.
Proof. done. Qed.

Lemma wp_assert P `{Decision P} a (Q : unit → stream → Prop) s :
  (P → Q tt s) → wp (py_assert P a) Q s.
Proof. unfold wp, py_assert. case_decide; simpl; auto. Qed.

Lemma wp_unpack fs bs (Q : tuple_of fs → stream → Prop) s :
  (∀ v, length bs = calcsize fs → Q v s) → wp (lift (unpack fs bs)) Q s.
Proof. unfold wp, lift, unpack. case_decide; simpl; auto. Qed.

Lemma wp_unpack_seq f n bs (Q : list (item_type f) → stream → Prop) s :
  (∀ v, Q v s) → wp (lift (unpack_seq f n bs)) Q s.
Proof. unfold wp, lift, unpack_seq. case_decide; simpl; auto. Qed.

Lemma wp_decode bs (Q : pystr → stream → Prop) s :
  (∀ v, Q v s) → wp (lift (decode_utf16le bs)) Q s.
Proof.
  unfold wp, lift, decode_utf16le.
  destruct (utf16le_code_points bs); simpl; auto.
Qed.

Lemma wp_while {A} (body : A → M (ctl A)) (I R : A → stream → Prop) :
  (∀ a s, I a s →
     wp (body a)
        (λ c s', match c with
                 | Continue a' =>
                     I a' s' ∧ (length (remaining s') < length (remaining s))%nat
                 | Break a' => R a' s'
                 end) s) →
  ∀ fuel a s, I a s → (length (remaining s) < fuel)%nat →
    wp (while_true fuel body a) R s.
Proof.
  intros Hbody. induction fuel as [|fuel IH]; intros a s HI Hfuel; [lia|].
  cbn [while_true]. apply wp_bind. eapply wp_mono; [|by apply Hbody].
  intros [a'|a'] s'; cbn beta iota.
  - intros [HI' Hlt]. apply IH; [done | lia].
  - intros HR. by apply wp_ret.
Qed.

Lemma wp_lift {A} (r : result A) (Q : A → stream → Prop) s :
  r ≠ OutOfFuel → (∀ a, r = Ok a → Q a s) → wp (lift r) Q s.
Proof. unfold wp, lift. destruct r; simpl; auto. Qed.

Lemma wp_input_fuel (Q : nat → stream → Prop) s :
  Q (S (length (data s))) s → wp input_fuel Q s.
Proof. done. Qed.

Lemma wp_seek o (Q : unit → stream → Prop) s :
  Q tt (Stream (kind s) (data s) (Z.to_nat o)) → wp (seek o) Q s.
Proof. done. Qed.

Lemma length_remaining_le s : (length (remaining s) ≤ length (data s))%nat.
Proof. unfold remaining. rewrite length_drop. lia. Qed.

(** *** [read_metadata] always comes to an end *)

Lemma titles_block_wp end_ content s :
  wp (titles_block end_ content)
     (λ c s', match c with
              | Continue _ => (length (remaining s') < length (remaining s))%nat
              | Break _ => (length (remaining s') ≤ length (remaining s))%nat
              end) s.
Proof.
  unfold titles_block. apply wp_bind, wp_tell. case_decide; [|by apply wp_ret].
  apply wp_bind, wp_read. intros bs s1 _ H1.
  apply wp_bind, (wp_unpack [Fb]). intros [ch_title_len []] Hlen.
  apply wp_bind, wp_read. intros title_bytes s2 _ H2.
  apply wp_bind, wp_decode. intros ch_title. apply wp_ret.
  unfold left_after in *. change (calcsize [Fb]) with 1%nat in Hlen. lia.
Qed.

Lemma read_titles_wp title_len s :
  wp (read_titles title_len)
     (λ _ s', (length (remaining s') ≤ length (remaining s))%nat) s.
Proof.
  unfold read_titles. apply wp_bind, wp_tell. apply wp_bind, wp_input_fuel.
  apply (wp_while _ (λ _ s', (length (remaining s') ≤ length (remaining s))%nat)).
  - intros content s1 Hs1. eapply wp_mono; [|apply titles_block_wp].
    intros [c|c] s2; cbn beta iota; lia.
  - done.
  - pose proof (length_remaining_le s). lia.
Qed.

Lemma category_of_byte_novel b c : category_of_byte b = Ok c → c = novel.
Proof.
  unfold category_of_byte, category_dict. cbn [assoc].
  unfold novel. repeat case_decide; congruence.
Qed.

Lemma category_of_byte_total b : category_of_byte b ≠ OutOfFuel.
Proof. unfold category_of_byte. by destruct (assoc _ _). Qed.

Lemma text_key_not_category tag key :
  0x02 ≤ tag < 0x0a → _BLOCK_TYPE_DICT !! tag = Some key → key ≠ "category".
Proof.
  intros Htag.
  assert (Hcases : tag = 2 ∨ tag = 3 ∨ tag = 4 ∨ tag = 5 ∨ tag = 6 ∨ tag = 7
                   ∨ tag = 8 ∨ tag = 9) by lia.
  destruct_or!; subst tag; vm_compute; congruence.
Qed.

Lemma category_ok_insert_ne key v metadata :
  key ≠ "category" → category_ok metadata → category_ok (<[key := v]> metadata).
Proof. intros Hne Hok w. rewrite lookup_insert_ne by done. apply Hok. Qed.

Lemma category_ok_insert_novel metadata :
  category_ok (<["category" := VStr novel]> metadata).
Proof. intros w. rewrite lookup_insert_eq. congruence. Qed.

Lemma metadata_block_wp metadata s :
  category_ok metadata →
  wp (metadata_block metadata)
     (λ c s', match c with
              | Continue metadata' =>
                  category_ok metadata'
                  ∧ (length (remaining s') < length (remaining s))%nat
              | Break metadata' => category_ok metadata'
              end) s.
Proof.
  intros Hok. unfold metadata_block.
  apply wp_bind, wp_read. intros hdr s1 _ Hr1.
  apply wp_bind, (wp_unpack [Fc; FH]). intros [splitter0 [tag []]] Hlen.
  change (calcsize [Fc; FH]) with 3%nat in Hlen.
  apply wp_bind, wp_assert. intros _.
  unfold left_after in *.
  repeat case_decide.
  - apply wp_bind, wp_read. intros bs s2 _ Hr2.
    apply wp_bind, (wp_unpack [Fh; Fb; Fh]). intros [h1 [category_byte [h2 []]]] _.
    apply wp_bind, wp_lift; [apply category_of_byte_total|].
    intros c ->%category_of_byte_novel. apply wp_ret.
    split; [apply category_ok_insert_novel | unfold left_after in *; lia].
  - apply wp_bind, wp_read. intros bs s2 _ Hr2.
    apply wp_bind, (wp_unpack [Fb; Fb]). intros [b1 [raw_length []]] _.
    apply wp_bind, wp_read. intros content_bytes s3 _ Hr3.
    apply wp_bind, wp_decode. intros content. apply wp_ret.
    split; [|unfold left_after in *; lia].
    match goal with
    | |- category_ok (match ?x with _ => _ end) =>
        destruct x as [key|] eqn:Hkey; [|assumption]
    end.
    apply category_ok_insert_ne; [|assumption]. by eapply text_key_not_category.
  - apply wp_bind, wp_read. intros bs s2 _ Hr2.
    apply wp_bind, (wp_unpack [Fh; Fi]). intros [h1 [full_length []]] _. apply wp_ret.
    split; [apply category_ok_insert_ne; [done | assumption] | unfold left_after in *; lia].
  - apply wp_bind, wp_read. intros bs s2 _ Hr2.
    apply wp_bind, (wp_unpack [Fh; Fi; Fb; Fi; Fi]). intros [h1 [i1 [b1 [i2 [raw_ch_no []]]]]] _.
    apply wp_bind, wp_assert. intros _.
    apply wp_bind, wp_read. intros bs' s3 _ Hr3.
    apply wp_bind, (wp_unpack_seq Fi). intros chapter_offsets. apply wp_ret.
    split; [apply category_ok_insert_ne; [done | assumption] | unfold left_after in *; lia].
  - apply wp_bind, wp_read. intros bs s2 _ Hr2.
    apply wp_bind, (wp_unpack [Fh; Fi; Fb; Fi; Fi]). intros [h1 [i1 [b1 [i2 [title_len []]]]]] _.
    apply wp_bind, wp_assert. intros _.
    apply wp_bind. eapply wp_mono; [|apply read_titles_wp].
    intros content s3 _. apply wp_ret. apply category_ok_insert_ne; [done | assumption].
  - apply wp_ret. split; [assumption | lia].
Qed.

Lemma category_ok_empty : category_ok ∅.
Proof. intros v. by rewrite lookup_empty. Qed.

Lemma getitem_total (d : dict) k : getitem d k ≠ OutOfFuel.
Proof. unfold getitem. by destruct (d !! k). Qed.

(** [read_metadata] never exhausts the passes allowed to its loops, and the
    category it returns is "Novel" whenever it returns. *)
Lemma read_metadata_wp offset s :
  wp (read_metadata offset)
     (λ r _, r.1 !! "category" = Some (VStr novel)) s.
Proof.
  unfold read_metadata. apply wp_bind.
  assert (Hrest : ∀ s0,
    wp (header ← read 4;
        if decide (header ≠ magic) then raise (ValueError "Wrong File Header.")
        else
          fuel ← input_fuel;
          metadata ← while_true fuel metadata_block ∅;
          body_offset ← tell;
          let metadata := <["body_offset" := VInt body_offset]> metadata in
          title ← lift (getitem metadata "title");
          category ← lift (getitem metadata "category");
          p ← tell;
          mret (metadata, p))
       (λ r _, r.1 !! "category" = Some (VStr novel)) s0).
  { intros s0. apply wp_bind, wp_read. intros header s1 _ _.
    case_decide; [apply wp_raise|].
    apply wp_bind, wp_input_fuel. apply wp_bind.
    eapply wp_mono; cycle 1.
    { apply (wp_while _ (λ md _, category_ok md) (λ md _, category_ok md)).
      - intros md s2 Hmd. eapply wp_mono; [|by apply metadata_block_wp].
        intros [md'|md'] s3; cbn beta iota; tauto.
      - apply category_ok_empty.
      - pose proof (length_remaining_le s1). lia. }
    intros md s2 Hmd. cbn beta. apply wp_bind, wp_tell.
    apply wp_bind, wp_lift; [apply getitem_total|]. intros title0 _.
    apply wp_bind, wp_lift; [apply getitem_total|]. intros cat Hcat.
    apply wp_bind, wp_tell. apply wp_ret. cbn [fst].
    unfold getitem in Hcat.
    destruct (_ !! "category") as [v|] eqn:E; [|done].
    pose proof E as E'. rewrite lookup_insert_ne in E' by done.
    f_equal. by apply Hmd. }
  destruct offset as [o|]; cbn [seek_offset].
  - case_decide; apply wp_seek, Hrest.
  - apply wp_ret, Hrest.
Qed.

Lemma read_metadata_total offset s : read_metadata offset s ≠ OutOfFuel.
Proof. eapply wp_total, read_metadata_wp. Qed.

Lemma read_metadata_category_novel offset s metadata p s' :
  read_metadata offset s = Ok (metadata, p, s') →
  metadata !! "category" = Some (VStr novel).
Proof. intros H. exact (wp_ok _ _ _ _ _ (read_metadata_wp offset s) H). Qed.

(** The branch of line 118 that logs the warning is never taken. *)
Lemma read_metadata_never_warns offset s metadata p s' :
  read_metadata offset s = Ok (metadata, p, s') →
  warns_only_novel metadata = false.
Proof.
  intros H%read_metadata_category_novel. unfold warns_only_novel.
  apply bool_decide_eq_false. intros Hne. by apply Hne.
Qed.

(** C1, the code at the failing input.  Category byte 1 decodes to
    "Novel".  Category byte 2 does not decode to "Comic": the dict literal
    of line 73 files "Comic" under the string ["0x02"], so the subscript
    with the integer 2 raises [KeyError], and [read_metadata] on the comic
    stream ends with that exception instead of returning the metadata. *)
Theorem comic_category_raises_key_error :
  category_of_byte 1 = Ok novel
  ∧ assoc (KStr "0x02") category_dict = Some (str_lit "Comic")
  ∧ category_of_byte 2 = Raise (KeyError (KInt 2))
  ∧ read_metadata None (Stream BufferedReader comic_umd 0)
      = Raise (KeyError (KInt 2))
  ∧ read_metadata None (Stream BytesIO comic_umd 0)
      = Raise (KeyError (KInt 2)).
Proof. repeat split; vm_compute; reflexivity. Qed.

(** ** Document assembly *)

Lemma chapters_loop_step metadata content offs i t titles acc a :
  metadata !! "chapter_offsets" = Some (VTuple offs) →
  offs !! i = Some a →
  chapters_loop metadata content i (t :: titles) acc
    = chapters_loop metadata content (S i) titles
        (acc ++ [mkChapter t (py_slice content a (offs !! S i))]).
Proof.
  intros Hoffs Ha. cbn [chapters_loop]. unfold getitem. rewrite Hoffs.
  cbn [mbind result_bind as_offsets]. unfold py_index.
  replace (i + 1)%nat with (S i) by lia. rewrite Ha.
  case_decide as Hlast.
  - cbn [mbind result_bind]. by rewrite (lookup_ge_None_2 offs (S i)) by lia.
  - destruct (offs !! S i) as [b|] eqn:Hb; [done|].
    apply lookup_ge_None in Hb. apply lookup_lt_Some in Ha. lia.
Qed.

Lemma chapters_loop_ok metadata content offs :
  metadata !! "chapter_offsets" = Some (VTuple offs) →
  ∀ titles i acc, (i + length titles ≤ length offs)%nat →
  ∃ chs, chapters_loop metadata content i titles acc = Ok (acc ++ chs)
    ∧ length chs = length titles
    ∧ ∀ k t a, titles !! k = Some t → offs !! (i + k)%nat = Some a →
        chs !! k = Some (mkChapter t (py_slice content a (offs !! S (i + k)))).
Proof.
  intros Hoffs. induction titles as [|t titles IH]; intros i acc Hlen.
  - exists []. rewrite app_nil_r. split; [done|]. split; [done|]. by intros [|k].
  - cbn [length] in Hlen.
    destruct (lookup_lt_is_Some_2 offs i) as [a Ha]; [lia|].
    rewrite (chapters_loop_step _ _ _ _ _ _ _ _ Hoffs Ha).
    destruct (IH (S i) (acc ++ [mkChapter t (py_slice content a (offs !! S i))]))
      as (chs & Hrun & Hlen' & Hk); [lia|].
    exists (mkChapter t (py_slice content a (offs !! S i)) :: chs).
    split; [by rewrite Hrun, <- app_assoc|]. split; [cbn [length]; lia|].
    intros [|k] t' a' Ht' Ha'.
    + rewrite Nat.add_0_r in *. cbn in Ht'. by simplify_eq.
    + cbn in Ht'. cbn [lookup list_lookup].
      replace (i + S k)%nat with (S i + k)%nat in * by lia. by apply Hk.
Qed.

Lemma chapters_loop_index_error metadata content offs :
  metadata !! "chapter_offsets" = Some (VTuple offs) →
  ∀ titles i acc, (i ≤ length offs < i + length titles)%nat →
  chapters_loop metadata content i titles acc = Raise IndexError.
Proof.
  intros Hoffs. induction titles as [|t titles IH]; intros i acc Hlen.
  - cbn [length] in Hlen. lia.
  - cbn [length] in Hlen. destruct (decide (i < length offs)%nat) as [Hi|Hi].
    + destruct (lookup_lt_is_Some_2 offs i) as [a Ha]; [lia|].
      rewrite (chapters_loop_step _ _ _ _ _ _ _ _ Hoffs Ha). apply IH. lia.
    + cbn [chapters_loop]. unfold getitem. rewrite Hoffs.
      cbn [mbind result_bind as_offsets]. rewrite decide_False by lia.
      unfold py_index. by rewrite (lookup_ge_None_2 offs i) by lia.
Qed.

Lemma build_chapters_unfold metadata content titles :
  metadata !! "chapter_titles" = Some (VList titles) →
  build_chapters metadata content = chapters_loop metadata content 0 titles [].
Proof. intros H. unfold build_chapters, getitem. by rewrite H. Qed.

Lemma py_slice_to_end {A} (l : list A) a :
  py_slice l a None
    = drop (Z.to_nat (slice_index (Z.of_nat (length l)) a)) l.
Proof.
  unfold py_slice. cbn [from_option].
  apply take_ge. rewrite length_drop.
  assert (0 ≤ slice_index (Z.of_nat (length l)) a ≤ Z.of_nat (length l)).
  { unfold slice_index. repeat case_decide; lia. }
  lia.
Qed.

(** C8.  With [n >= 1] offsets and as many titles, assembly builds [n]
    chapters; chapter [i] pairs the [i]-th title with
    [content[offsets[i]:offsets[i+1]]] as long as a next offset exists, and
    the last chapter pairs the last title with [content[offsets[n-1]:]],
    which is the body from that offset to its very end. *)
Theorem chapters_cut_at_offsets
    (metadata : dict) (content : pystr) (offs : list Z) (titles : list pystr) :
  metadata !! "chapter_offsets" = Some (VTuple offs) →
  metadata !! "chapter_titles" = Some (VList titles) →
  length offs = length titles →
  (1 ≤ length titles)%nat →
  ∃ chs, build_chapters metadata content = Ok chs
    ∧ length chs = length titles
    ∧ (∀ i t a b, titles !! i = Some t → offs !! i = Some a →
         offs !! S i = Some b →
         chs !! i = Some (mkChapter t (py_slice content a (Some b))))
    ∧ (∀ t a, last titles = Some t → last offs = Some a →
         last chs = Some (mkChapter t (py_slice content a None))
         ∧ py_slice content a None
             = drop (Z.to_nat (slice_index (Z.of_nat (length content)) a)) content).
Proof.
  intros Hoffs Htitles Hlen Hpos.
  rewrite (build_chapters_unfold _ _ _ Htitles).
  destruct (chapters_loop_ok _ content _ Hoffs titles 0%nat []) as (chs & Hrun & Hlen' & Hk);
    [cbn; lia|].
  exists chs. split; [done|]. split; [done|]. split.
  - intros i t a b Ht Ha Hb. rewrite (Hk i t a Ht Ha). cbn [Nat.add]. by rewrite Hb.
  - intros t a Ht Ha. split; [|apply py_slice_to_end].
    rewrite (last_lookup titles) in Ht. rewrite (last_lookup offs) in Ha.
    rewrite (last_lookup chs), Hlen'. rewrite Hlen in Ha.
    rewrite (Hk _ t a Ht Ha). cbn [Nat.add].
    by rewrite (lookup_ge_None_2 offs) by lia.
Qed.

Lemma chapters_cut_at_offsets_witness :
  ∃ chs, build_chapters two_chapter_dict (str_lit "Hello!?") = Ok chs
    ∧ length chs = 2%nat
    ∧ (∀ i t a b, [str_lit "A"; str_lit "B"] !! i = Some t →
         [0; 2] !! i = Some a → [0; 2] !! S i = Some b →
         chs !! i = Some (mkChapter t (py_slice (str_lit "Hello!?") a (Some b))))
    ∧ (∀ t a, last [str_lit "A"; str_lit "B"] = Some t → last [0; 2] = Some a →
         last chs = Some (mkChapter t (py_slice (str_lit "Hello!?") a None))
         ∧ py_slice (str_lit "Hello!?") a None
             = drop (Z.to_nat (slice_index
                                 (Z.of_nat (length (str_lit "Hello!?"))) a))
                 (str_lit "Hello!?")).
Proof.
  apply (chapters_cut_at_offsets two_chapter_dict (str_lit "Hello!?")
           [0; 2] [str_lit "A"; str_lit "B"]);
    [reflexivity | reflexivity | reflexivity | simpl; lia].
Defined.

Example two_chapters_run :
  build_chapters two_chapter_dict (str_lit "Hello!?")
    = Ok [mkChapter (str_lit "A") (str_lit "He");
          mkChapter (str_lit "B") (str_lit "llo!?")].
Proof. reflexivity. Qed.

(** C4 (as amended).  No length is compared.  With more titles than
    offsets the subscript [chapter_offsets[i]] runs off the tuple and
    assembly raises [IndexError]; with fewer titles than offsets assembly
    raises nothing and builds one chapter per title, each cut at the next
    offset. *)
Theorem chapter_length_mismatch
    (metadata : dict) (content : pystr) (offs : list Z) (titles : list pystr) :
  metadata !! "chapter_offsets" = Some (VTuple offs) →
  metadata !! "chapter_titles" = Some (VList titles) →
  length offs ≠ length titles →
  if decide (length offs < length titles)%nat
  then build_chapters metadata content = Raise IndexError
  else ∃ chs, build_chapters metadata content = Ok chs
         ∧ length chs = length titles
         ∧ ∀ i t a b, titles !! i = Some t → offs !! i = Some a →
             offs !! S i = Some b →
             chs !! i = Some (mkChapter t (py_slice content a (Some b))).
Proof.
  intros Hoffs Htitles Hne.
  rewrite (build_chapters_unfold _ _ _ Htitles). case_decide as Hlt.
  - apply (chapters_loop_index_error _ _ _ Hoffs). cbn. lia.
  - destruct (chapters_loop_ok _ content _ Hoffs titles 0%nat [])
      as (chs & Hrun & Hlen' & Hk); [cbn; lia|].
    exists chs. split; [done|]. split; [done|].
    intros i t a b Ht Ha Hb. rewrite (Hk i t a Ht Ha). cbn [Nat.add].
    by rewrite Hb.
Qed.

Lemma chapter_length_mismatch_witness :
  build_chapters long_titles_dict (str_lit "Hello") = Raise IndexError.
Proof.
  apply (chapter_length_mismatch long_titles_dict (str_lit "Hello")
           [0] [str_lit "A"; str_lit "B"]);
    [reflexivity | reflexivity | simpl; lia].
Defined.

(** C4, the claim as stated refuted: two offsets, one title, and assembly
    returns one chapter without raising. *)
Lemma short_titles_no_error :
  sample_dict !! "chapter_offsets" = Some (VTuple [0; 2])
  ∧ sample_dict !! "chapter_titles" = Some (VList [str_lit "A"])
  ∧ build_chapters sample_dict (str_lit "Hello")
      = Ok [mkChapter (str_lit "A") (str_lit "He")].
Proof. repeat split; reflexivity. Qed.

(** ** The cover *)

Lemma read_eof n s : remaining s = [] → 0 ≤ n → read n s = Ok ([], s).
Proof.
  intros Hrem Hn. unfold read. rewrite decide_True by done.
  rewrite Hrem, take_nil. cbn [length]. by rewrite advance_0.
Qed.

Lemma seek_here s : seek (Z.of_nat (pos s)) s = Ok (tt, s).
Proof. destruct s. unfold seek. cbn. by rewrite Nat2Z.id. Qed.

Lemma tell_advance n s : tell (advance n s) = Ok (Z.of_nat (pos s + n), advance n s).
Proof. done. Qed.

Section Cover.

Variable zlib_decompress : bytes → option bytes.

(** What [read_cover] does once the cursor is in place (lines 185-198). *)
Lemma read_cover_here fuel offset s :
  offset = None ∨ offset = Some (Z.of_nat (pos s)) →
  read_cover zlib_decompress fuel offset s
  = (splitter0 ← read 1;
     cover ←
       (if decide (splitter0 = []) then mret None
        else
          bs ← read 2;
          '(next_type, _) ← lift (unpack [Fh] bs);
          if decide (next_type = 0x82) then
            bs ← read 16;
            '(b1, (b2, (b3, (i1, (b4, (i2, (raw_cover_length, _))))))) ←
              lift (unpack [Fb; Fb; Fb; Fi; Fb; Fi; Fi] bs);
            c ← read (raw_cover_length - 9);
            mret (Some c)
          else mret None);
     p ← tell;
     mret (cover, p)) s.
Proof.
  intros [-> | ->]; unfold read_cover; [done|].
  rewrite decide_True by lia. by rewrite (bind_ok _ _ _ _ _ (seek_here s)).
Qed.

(** C10.  Called where the content ended ([offset] absent or equal to the
    cursor): at the end of the data [read_cover] returns no cover and
    leaves the cursor; before a record whose 16-bit tag is not 0x82 it
    returns no cover, three bytes further; before a record with tag 0x82,
    a 16-byte header with encoded length [E] and [E - 9] image bytes, it
    returns exactly those image bytes.  No case raises. *)
Theorem read_cover_cases (fuel : nat) (offset : option Z) (s : stream) :
  offset = None ∨ offset = Some (Z.of_nat (pos s)) →
  (remaining s = [] →
     read_cover zlib_decompress fuel offset s = Ok (None, Z.of_nat (pos s), s))
  ∧ (∀ (c t0 t1 : byte) (rest : bytes),
       remaining s = [c; t0; t1] ++ rest →
       to_signed 16 (le_uint [t0; t1]) ≠ 0x82 →
       read_cover zlib_decompress fuel offset s
         = Ok (None, Z.of_nat (pos s + 3), advance 3 s))
  ∧ (∀ (c : byte) (hdr image rest : bytes) (b1 b2 b3 i1 b4 i2 E : Z),
       remaining s = [c; x82; x00] ++ hdr ++ image ++ rest →
       unpack [Fb; Fb; Fb; Fi; Fb; Fi; Fi] hdr
         = Ok (b1, (b2, (b3, (i1, (b4, (i2, (E, tt))))))) →
       E - 9 = Z.of_nat (length image) →
       read_cover zlib_decompress fuel offset s
         = Ok (Some image, Z.of_nat (pos s + (19 + length image)),
               advance (19 + length image) s)).
Proof.
  intros Hoff. rewrite (read_cover_here _ _ _ Hoff). repeat split.
  - intros Hrem. rewrite (bind_ok _ _ _ _ _ (read_eof 1 s Hrem ltac:(lia))).
    rewrite decide_True by done. done.
  - intros c t0 t1 rest Hrem Htag.
    rewrite (bind_ok _ _ _ _ _ (read_app 1 [c] _ s Hrem eq_refl)).
    rewrite decide_False by done.
    pose proof (remaining_read [c] _ _ Hrem) as Hrem1. cbn [length] in *.
    rewrite (bind_ok (read 2 ≫= _) _ _ None (advance 3 s)); [done|].
    rewrite (bind_ok _ _ _ _ _ (read_app 2 [t0; t1] _ _ Hrem1 eq_refl)).
    run_unpack. rewrite decide_False by done.
    cbn [length]. by rewrite advance_advance.
  - intros c hdr image rest b1 b2 b3 i1 b4 i2 E Hrem Hun HE.
    rewrite (bind_ok _ _ _ _ _ (read_app 1 [c] _ s Hrem eq_refl)).
    rewrite decide_False by done.
    pose proof (remaining_read [c] _ _ Hrem) as Hrem1. cbn [length] in *.
    rewrite (bind_ok (read 2 ≫= _) _ _ (Some image) (advance (19 + length image) s));
      [done|].
    rewrite (bind_ok _ _ _ _ _ (read_app 2 [x82; x00] _ _ Hrem1 eq_refl)).
    run_unpack. rewrite decide_True by done.
    pose proof (remaining_read [x82; x00] _ _ Hrem1) as Hrem2. cbn [length] in *.
    pose proof (unpack_length _ _ _ Hun) as Hlen.
    change (calcsize _) with 16%nat in Hlen.
    rewrite (bind_ok _ _ _ _ _ (read_app 16 hdr _ _ Hrem2 ltac:(rewrite Hlen; done))).
    rewrite (bind_ok _ _ _ _ _ (lift_ok _ _ _ Hun)). cbn beta iota.
    pose proof (remaining_read hdr _ _ Hrem2) as Hrem3.
    rewrite HE.
    rewrite (bind_ok _ _ _ _ _ (read_app _ image _ _ Hrem3 eq_refl)).
    rewrite !advance_advance, Hlen. unfold mret, M_ret. do 2 f_equal.
Qed.

End Cover.

Lemma read_cover_cases_witness :
  read_cover zlib_stored 2 (Some 146) (Stream BufferedReader sample_umd 146)
    = Ok (None, 146, Stream BufferedReader sample_umd 146)
  ∧ read_cover zlib_stored 2 None (Stream BufferedReader sample_umd 94)
    = Ok (None, 97, Stream BufferedReader sample_umd 97)
  ∧ read_cover zlib_stored 2 (Some 146) (Stream BufferedReader cover_umd 146)
    = Ok (Some [xff; xd8; xff], 168, Stream BufferedReader cover_umd 168).
Proof.
  split; [|split].
  - apply (read_cover_cases zlib_stored 2 (Some 146)
             (Stream BufferedReader sample_umd 146) (or_intror eq_refl)).
    reflexivity.
  - apply (read_cover_cases zlib_stored 2 None
             (Stream BufferedReader sample_umd 94) (or_introl eq_refl))
      with (c := x24) (t0 := x01) (t1 := x00) (rest := drop 97 sample_umd);
      [reflexivity | vm_compute; congruence].
  - apply (read_cover_cases zlib_stored 2 (Some 146)
             (Stream BufferedReader cover_umd 146) (or_intror eq_refl))
      with (c := x23) (hdr := take 16 (drop 3 cover_block)) (rest := [])
           (b1 := 1) (b2 := 10) (b3 := 0) (i1 := 8979) (b4 := 36) (i2 := 8979)
           (E := 12);
      reflexivity.
Defined.

(** ** The content loop *)

Section Content.

Variable zlib_decompress : bytes → option bytes.

(** A pass that finds neither ['#'] nor ['$'] in [splitter] reads nothing
    and hands the same variables to the next pass. *)
Lemma content_block_stuck (st : content_state) (s : stream) :
  splitter st ≠ [x23] → splitter st ≠ [x24] →
  content_block zlib_decompress st s = Ok (Continue st, s).
Proof. intros H1 H2. unfold content_block. by rewrite !decide_False. Qed.

(** From such a pass on the loop never leaves: whatever the number of
    passes granted, none of them breaks or raises. *)
Lemma content_loop_stuck (st : content_state) (s : stream) (fuel : nat) :
  splitter st ≠ [x23] → splitter st ≠ [x24] →
  while_true fuel (content_block zlib_decompress) st s = OutOfFuel.
Proof.
  intros H1 H2. induction fuel as [|fuel IH]; [done|].
  cbn [while_true]. by rewrite (bind_ok _ _ _ _ _ (content_block_stuck st s H1 H2)).
Qed.

(** [read_content] started at the end of the data, or at a byte that is
    neither ['#'] nor ['$'], never returns and never raises. *)
Lemma read_content_hangs (fuel : nat) (s : stream) (c : byte) (rest : bytes) :
  remaining s = [] ∨ (remaining s = c :: rest ∧ c ≠ x23 ∧ c ≠ x24) →
  read_content zlib_decompress fuel None s = OutOfFuel.
Proof.
  intros Hs. unfold read_content.
  rewrite (bind_ok _ _ _ tt s) by done.
  destruct Hs as [Hrem | (Hrem & H1 & H2)].
  - rewrite (bind_ok _ _ _ _ _ (read_eof 1 s Hrem ltac:(lia))).
    unfold mbind at 1, M_bind. by rewrite content_loop_stuck.
  - rewrite (bind_ok _ _ _ _ _ (read_app 1 [c] rest s Hrem eq_refl)).
    unfold mbind at 1, M_bind. rewrite content_loop_stuck; [done| |];
      cbn; congruence.
Qed.

End Content.

Lemma read_content_hangs_witness :
  read_content zlib_stored 5 None (Stream BufferedReader sample_umd 146)
    = OutOfFuel
  ∧ read_content zlib_stored 5 None (Stream BufferedReader sample_umd 1)
    = OutOfFuel.
Proof.
  split.
  - apply (read_content_hangs zlib_stored 5
             (Stream BufferedReader sample_umd 146) x00 []).
    left. reflexivity.
  - apply (read_content_hangs zlib_stored 5
             (Stream BufferedReader sample_umd 1) x9b (drop 2 sample_umd)).
    right. split; [reflexivity | split; congruence].
Defined.

(** C5, the code at the failing input.  [truncated_umd] is the sample cut
    off behind its segment.  The first pass reads the segment, [read(1)]
    then returns [b""], and no later pass reads, breaks or raises: for
    every number of passes, [read_content] and [from_stream] are still in
    the loop.  The same holds on a stream whose next framing byte is
    neither ['#'] nor ['$'] (here the byte ['X']). *)
Theorem read_content_hangs_on_truncated_body (fuel : nat) :
  read_content zlib_stored fuel (Some 94) (Stream BufferedReader truncated_umd 0)
    = OutOfFuel
  ∧ from_stream zlib_stored fuel (Stream BufferedReader truncated_umd 0)
    = OutOfFuel
  ∧ read_content zlib_stored fuel None (Stream BufferedReader [x58] 0)
    = OutOfFuel.
Proof.
  assert (Hloop :
    while_true fuel (content_block zlib_stored) (mkContentState [x24] [] [])
      (Stream BufferedReader truncated_umd 95) = OutOfFuel).
  { destruct fuel as [|fuel]; [done|]. cbn [while_true].
    rewrite (bind_ok _ _ _
               (Continue (mkContentState [] [1]
                            [[x48; x00; x65; x00; x6c; x00; x6c; x00; x6f; x00]]))
               (Stream BufferedReader truncated_umd 124))
      by (vm_compute; reflexivity).
    by apply content_loop_stuck. }
  split; [|split].
  - unfold read_content. rewrite decide_True by lia.
    rewrite (bind_ok _ _ _ tt (Stream BufferedReader truncated_umd 94)) by done.
    rewrite (bind_ok _ _ _ [x24] (Stream BufferedReader truncated_umd 95)) by done.
    unfold mbind at 1, M_bind. by rewrite Hloop.
  - unfold from_stream.
    rewrite (bind_ok _ _ _ (sample_metadata_dict, 94)
               (Stream BufferedReader truncated_umd 94))
      by (vm_compute; reflexivity).
    cbn beta iota. unfold mbind at 1, M_bind.
    unfold read_content. rewrite decide_True by lia.
    rewrite (bind_ok _ _ _ tt (Stream BufferedReader truncated_umd 94)) by done.
    rewrite (bind_ok _ _ _ [x24] (Stream BufferedReader truncated_umd 95)) by done.
    unfold mbind at 1, M_bind. by rewrite Hloop.
  - apply (read_content_hangs zlib_stored fuel _ x58 []).
    right. split; [reflexivity | split; congruence].
Qed.

(** ** The content loop on well-formed records *)

Lemma encode_body_cons r rs : encode_body (r :: rs) = encode_record r ++ encode_body rs.
Proof. done. Qed.

(** Behind every record lies the framing byte of the next record or of the
    end-of-body marker. *)
Lemma next_framing_byte rs tail :
  ∃ c enc, encode_body rs ++ end_of_body ++ tail = c :: enc.
Proof.
  destruct rs as [|[t p|i blk] rs]; cbn; eauto.
Qed.

Lemma le_bytes_2 x : le_bytes 2 x = [byte_of_Z x; byte_of_Z (x / 256)].
Proof. done. Qed.

Lemma le_bytes_4 x :
  le_bytes 4 x = [byte_of_Z x; byte_of_Z (x / 256); byte_of_Z (x / 256 / 256);
                  byte_of_Z (x / 256 / 256 / 256)].
Proof. done. Qed.

Section Records.

Variable zlib_decompress : bytes → option bytes.

Lemma pass_end (st : content_state) (s0 : stream) (tail : bytes) :
  splitter st = [x23] →
  remaining s0 = end_of_body ++ tail →
  content_block zlib_decompress st (advance 1 s0) = Ok (Break st, advance 3 s0).
Proof.
  intros Hsp Hrem. unfold content_block. rewrite decide_True by done.
  pose proof (remaining_read [x23] _ _ Hrem) as Hrem1. cbn [length] in Hrem1.
  rewrite (bind_ok _ _ _ _ _ (read_app 2 [x81; x00] _ _ Hrem1 eq_refl)).
  run_unpack. rewrite decide_True by done.
  cbn [length]. by rewrite advance_advance.
Qed.

Lemma pass_control (st : content_state) (s0 : stream) t p c rest :
  wf_record (Control t p) →
  splitter st = [x23] →
  remaining s0 = encode_record (Control t p) ++ c :: rest →
  content_block zlib_decompress st (advance 1 s0)
    = Ok (Continue (mkContentState [c] (rnd_lst st) (content_list st)),
          advance 1 (advance (length (encode_record (Control t p))) s0)).
Proof.
  intros (Ht & Hne & Hp) Hsp Hrem. unfold content_block.
  rewrite decide_True by done.
  cbn [encode_record] in *. rewrite le_bytes_2 in Hrem.
  pose proof (remaining_read [x23] _ _ Hrem) as Hrem1. cbn [length] in Hrem1.
  rewrite (bind_ok _ _ _ _ _
             (read_app 2 [byte_of_Z t; byte_of_Z (t / 256)] _ _ Hrem1 eq_refl)).
  run_unpack. rewrite <- le_bytes_2.
  pose proof (decode_le_bytes_h t Ht) as Hdec. cbn [decode_item] in Hdec.
  rewrite Hdec. rewrite decide_False by done.
  pose proof (remaining_read [_; _] _ _ Hrem1) as Hrem2.
  cbn [length] in *. rewrite advance_advance in *.
  assert (Hskip : ∀ {B} (k : unit → M B),
    ((if decide (t = 0xf1) then
        bs ← read 18; _ ← lift (unpack (Fh :: replicate 16 Fc) bs); mret tt
      else if decide (t = 0x0a) then
        bs ← read 6; _ ← lift (unpack [Fh; Fi] bs); mret tt
      else mret tt) ≫= k) (advance (1 + 2) s0)
    = k tt (advance (length p) (advance (1 + 2) s0))).
  { intros B k. unfold control_payload_size in Hp. repeat case_decide.
    - rewrite (bind_ok _ _ _ tt (advance (length p) (advance (1 + 2) s0))); [done|].
      rewrite (bind_ok _ _ _ _ _ (read_app 18 p _ _ Hrem2 ltac:(rewrite Hp; done))).
      by rewrite (bind_ok _ _ _ _ _
                    (lift_ok _ _ _ (unpack_ok (Fh :: replicate 16 Fc) p Hp))).
    - rewrite (bind_ok _ _ _ tt (advance (length p) (advance (1 + 2) s0))); [done|].
      rewrite (bind_ok _ _ _ _ _ (read_app 6 p _ _ Hrem2 ltac:(rewrite Hp; done))).
      by rewrite (bind_ok _ _ _ _ _ (lift_ok _ _ _ (unpack_ok [Fh; Fi] p Hp))).
    - apply nil_length_inv in Hp. subst p. cbn [length]. by rewrite advance_0. }
  rewrite Hskip.
  pose proof (remaining_read p _ _ Hrem2) as Hrem3.
  rewrite (bind_ok _ _ _ _ _ (read_app 1 [c] _ _ Hrem3 eq_refl)).
  cbn [length]. rewrite !advance_advance. unfold mret, M_ret.
  do 2 f_equal; try (apply advance_eq; rewrite ?length_app; cbn [length]; lia).
Qed.

Lemma pass_segment (st : content_state) (s0 : stream) i block payload c rest :
  wf_record (Segment i block) →
  zlib_decompress block = Some payload →
  splitter st = [x24] →
  remaining s0 = encode_record (Segment i block) ++ c :: rest →
  content_block zlib_decompress st (advance 1 s0)
    = Ok (Continue (mkContentState [c] (rnd_lst st ++ [i])
                      (content_list st ++ [payload])),
          advance 1 (advance (length (encode_record (Segment i block))) s0)).
Proof.
  intros (Hi & Hlen) Hz Hsp Hrem. unfold content_block.
  rewrite decide_False by (rewrite Hsp; congruence).
  rewrite decide_True by done.
  cbn [encode_record] in *. rewrite !le_bytes_4 in Hrem.
  pose proof (remaining_read [x24] _ _ Hrem) as Hrem1. cbn [length] in Hrem1.
  set (n := Z.of_nat (length block) + 9) in *.
  rewrite (bind_ok _ _ _ _ _
             (read_app 8 ([byte_of_Z i; byte_of_Z (i / 256); byte_of_Z (i / 256 / 256);
                           byte_of_Z (i / 256 / 256 / 256)] ++
                          [byte_of_Z n; byte_of_Z (n / 256); byte_of_Z (n / 256 / 256);
                           byte_of_Z (n / 256 / 256 / 256)]) (block ++ c :: rest) _
                ltac:(rewrite Hrem1; by rewrite <- !app_assoc) eq_refl)).
  run_unpack. cbn [app firstn skipn]. rewrite <- !le_bytes_4.
  pose proof (decode_le_bytes_i i Hi) as Hdi. cbn [decode_item] in Hdi.
  pose proof (decode_le_bytes_i n Hlen) as Hdn. cbn [decode_item] in Hdn.
  rewrite Hdi, Hdn.
  assert (Hrem2 : remaining (advance 8 (advance 1 s0)) = block ++ c :: rest).
  { rewrite remaining_advance, Hrem1. done. }
  rewrite (bind_ok _ _ _ _ _ (read_app (n - 9) block _ _ Hrem2 ltac:(unfold n; lia))).
  unfold decompress. rewrite Hz.
  rewrite (bind_ok _ _ _ _ _ (lift_ok _ payload _ eq_refl)).
  pose proof (remaining_read block _ _ Hrem2) as Hrem3.
  rewrite (bind_ok _ _ _ _ _ (read_app 1 [c] _ _ Hrem3 eq_refl)).
  cbn [length]. rewrite !advance_advance. unfold mret, M_ret.
  do 2 f_equal; try (apply advance_eq; rewrite ?length_app; cbn [length]; lia).
Qed.

Lemma content_loop_records (rs : list body_record) :
  ∀ (payloads : list bytes) (fuel : nat) (st : content_state) (s0 : stream)
    (tail : bytes),
  Forall wf_record rs →
  Forall2 (λ block payload, zlib_decompress block = Some payload)
          (segment_blocks rs) payloads →
  (length rs < fuel)%nat →
  remaining s0 = encode_body rs ++ end_of_body ++ tail →
  splitter st = take 1 (remaining s0) →
  while_true fuel (content_block zlib_decompress) st (advance 1 s0)
    = Ok (mkContentState [x23] (rnd_lst st ++ segment_indices rs)
            (content_list st ++ payloads),
          advance (length (encode_body rs) + 3) s0).
Proof.
  induction rs as [|r rs IH]; intros payloads fuel st s0 tail Hwf Hz Hfuel Hrem Hsp.
  - apply Forall2_nil_inv_l in Hz. subst payloads.
    destruct fuel as [|fuel]; [cbn in Hfuel; lia|].
    rewrite Hrem in Hsp. cbn in Hsp. cbn [while_true].
    rewrite (bind_ok _ _ _ _ _ (pass_end st s0 tail Hsp Hrem)).
    destruct st as [sp rnd cl]. cbn in Hsp. subst sp. cbn.
    by rewrite !app_nil_r.
  - destruct fuel as [|fuel]; [cbn in Hfuel; lia|].
    apply Forall_cons in Hwf as [Hr Hwf]. cbn [length] in Hfuel.
    rewrite encode_body_cons, <- app_assoc in Hrem.
    destruct (next_framing_byte rs tail) as (c & enc & Henc).
    pose proof Hrem as Hrem'. rewrite Henc in Hrem'.
    pose proof (remaining_read _ _ _ Hrem) as Hnext.
    assert (Hsp' : [c] = take 1 (remaining (advance (length (encode_record r)) s0)))
      by (by rewrite Hnext, Henc).
    cbn [while_true]. destruct r as [t p | i block].
    + rewrite Hrem in Hsp. cbn in Hsp.
      rewrite (bind_ok _ _ _ _ _ (pass_control st s0 t p c enc Hr Hsp Hrem')).
      rewrite (IH payloads fuel (mkContentState [c] (rnd_lst st) (content_list st))
                 _ tail Hwf Hz ltac:(lia) Hnext Hsp').
      cbn [rnd_lst content_list]. rewrite advance_advance.
      do 2 f_equal. apply advance_eq. rewrite encode_body_cons, length_app. lia.
    + change (segment_blocks (Segment i block :: rs))
        with (block :: segment_blocks rs) in Hz.
      apply Forall2_cons_inv_l in Hz as (payload & payloads' & Hpay & Hz & ->).
      rewrite Hrem in Hsp. cbn in Hsp.
      rewrite (bind_ok _ _ _ _ _
                 (pass_segment st s0 i block payload c enc Hr Hpay Hsp Hrem')).
      rewrite (IH payloads' fuel
                 (mkContentState [c] (rnd_lst st ++ [i]) (content_list st ++ [payload]))
                 _ tail Hwf Hz ltac:(lia) Hnext Hsp').
      cbn [rnd_lst content_list]. rewrite advance_advance.
      change (segment_indices (Segment i block :: rs))
        with (i :: segment_indices rs).
      rewrite <- !app_assoc. cbn [app].
      do 2 f_equal. apply advance_eq. rewrite encode_body_cons, length_app. lia.
Qed.

(** The trailer and the check of line 168. *)
Lemma read_trailer_checked (st : content_state) (s : stream) (hdr rest : bytes)
    (h i1 b i2 B : Z) (xs : list Z) :
  remaining s = hdr ++ pack_seq_i xs ++ rest →
  unpack [Fh; Fi; Fb; Fi; Fi] hdr = Ok (h, (i1, (b, (i2, (B, tt))))) →
  (B - 9) ÷ 4 = Z.of_nat (length xs) →
  Forall (int_range 32) xs →
  read_trailer st s
    = if decide (rnd_lst st = xs)
      then lift (decode_utf16le (concat (content_list st)))
             (advance (15 + 4 * length xs) s)
      else Raise (AssertionError rnd_lst_eq).
Proof.
  intros Hrem Hun HB Hxs. unfold read_trailer.
  rewrite (read_header15 _ _ _ _ _ Hrem Hun).
  rewrite (bind_ok _ _ _ _ _ (lift_ok _ _ _ Hun)). cbn beta iota.
  assert (Hrem' : remaining (advance 15 s) = pack_seq_i xs ++ rest).
  { apply unpack_length in Hun. change (calcsize _) with 15%nat in Hun.
    rewrite <- Hun. by apply remaining_read. }
  unfold int_div. rewrite HB.
  assert (Hlen : 4 * Z.of_nat (length xs) = Z.of_nat (length (pack_seq_i xs)))
    by (rewrite length_pack_seq_i; lia).
  rewrite (bind_ok _ _ _ _ _ (read_app _ _ _ _ Hrem' Hlen)).
  rewrite (bind_ok _ _ _ _ _ (lift_ok _ _ _ (unpack_seq_pack xs _ Hxs eq_refl))).
  rewrite advance_advance, length_pack_seq_i.
  replace (15 + length xs * 4)%nat with (15 + 4 * length xs)%nat by lia.
  case_decide as Heq.
  - by rewrite (bind_ok _ _ _ _ _ (py_assert_true _ _ _ Heq)).
  - apply bind_raise. by apply py_assert_false.
Qed.

(** [read_content] on a body of well-formed records, the end-of-body marker
    and a trailer that lists the indices [xs]. *)
Lemma read_content_records (rs : list body_record) (payloads : list bytes)
    (fuel : nat) (s : stream) (hdr rest : bytes) (h i1 b i2 B : Z) (xs : list Z) :
  Forall wf_record rs →
  Forall2 (λ block payload, zlib_decompress block = Some payload)
          (segment_blocks rs) payloads →
  (length rs < fuel)%nat →
  remaining s = encode_body rs ++ end_of_body ++ hdr ++ pack_seq_i xs ++ rest →
  unpack [Fh; Fi; Fb; Fi; Fi] hdr = Ok (h, (i1, (b, (i2, (B, tt))))) →
  (B - 9) ÷ 4 = Z.of_nat (length xs) →
  Forall (int_range 32) xs →
  let n := (length (encode_body rs) + 3 + (15 + 4 * length xs))%nat in
  read_content zlib_decompress fuel None s
    = if decide (segment_indices rs = xs)
      then body ← decode_utf16le (concat payloads);
           Ok (body, Z.of_nat (pos s + n), advance n s)
      else Raise (AssertionError rnd_lst_eq).
Proof.
  intros Hwf Hz Hfuel Hrem Hun HB Hxs n. unfold read_content.
  rewrite (bind_ok _ _ _ tt s) by done.
  destruct (next_framing_byte rs (hdr ++ pack_seq_i xs ++ rest)) as (c & enc & Henc).
  pose proof Hrem as Hrem0. rewrite Henc in Hrem0.
  rewrite (bind_ok _ _ _ _ _ (read_app 1 [c] enc s Hrem0 eq_refl)).
  cbn [length].
  rewrite (bind_ok _ _ _ _ _
             (content_loop_records rs payloads fuel (mkContentState [c] [] []) s
                (hdr ++ pack_seq_i xs ++ rest) Hwf Hz Hfuel Hrem
                ltac:(by rewrite Hrem0))).
  cbn [rnd_lst content_list app].
  assert (Hrem1 : remaining (advance (length (encode_body rs) + 3) s)
                  = hdr ++ pack_seq_i xs ++ rest).
  { rewrite remaining_advance, Hrem.
    rewrite (app_assoc (encode_body rs) end_of_body).
    rewrite drop_app_length'; [done|]. by rewrite length_app. }
  unfold mbind at 1, M_bind.
  rewrite (read_trailer_checked _ _ hdr rest h i1 b i2 B xs Hrem1 Hun HB Hxs).
  cbn [rnd_lst content_list]. case_decide; [|done].
  unfold lift. destruct (decode_utf16le (concat payloads)) as [body| |]; [|done|done].
  cbn. rewrite advance_advance. done.
Qed.

Lemma segment_indices_range (rs : list body_record) :
  Forall wf_record rs → Forall (int_range 32) (segment_indices rs).
Proof.
  induction 1 as [|[t p|i block] rs Hr _ IH]; [constructor | exact IH |].
  change (segment_indices (Segment i block :: rs)) with (i :: segment_indices rs).
  constructor; [apply Hr | exact IH].
Qed.

(** C6.  On a body of well-formed records [rs], the end-of-body marker and
    the trailer that lists their indices, [read_content] returns the
    UTF-16LE decoding of the decompressed payloads concatenated in the
    order of [rs], which is the order of the stream; the indices are
    arbitrary 32-bit values and play no part in the order.  When the bytes
    do not decode, the decoding error is the outcome. *)
Theorem body_is_concatenation_in_read_order
    (rs : list body_record) (payloads : list bytes) (fuel : nat) (s : stream)
    (hdr rest : bytes) (h i1 b i2 B : Z) :
  Forall wf_record rs →
  Forall2 (λ block payload, zlib_decompress block = Some payload)
          (segment_blocks rs) payloads →
  (length rs < fuel)%nat →
  remaining s = encode_body rs ++ end_of_body ++ hdr
                  ++ pack_seq_i (segment_indices rs) ++ rest →
  unpack [Fh; Fi; Fb; Fi; Fi] hdr = Ok (h, (i1, (b, (i2, (B, tt))))) →
  (B - 9) ÷ 4 = Z.of_nat (length (segment_indices rs)) →
  let n := (length (encode_body rs) + 3
            + (15 + 4 * length (segment_indices rs)))%nat in
  read_content zlib_decompress fuel None s
    = (body ← decode_utf16le (concat payloads);
       Ok (body, Z.of_nat (pos s + n), advance n s)).
Proof.
  intros Hwf Hz Hfuel Hrem Hun HB n.
  rewrite (read_content_records rs payloads fuel s hdr rest h i1 b i2 B
             (segment_indices rs) Hwf Hz Hfuel Hrem Hun HB
             (segment_indices_range rs Hwf)).
  by rewrite decide_True.
Qed.

(** C7.  On such a body whose trailer declares [(B - 9) / 4] indices [xs],
    [read_content] compares the indices collected from the segments, in the
    order they were read, with [xs]: when the two lists differ, in a value
    or in the order, it raises the assertion failure. *)
Theorem trailer_must_list_indices_in_read_order
    (rs : list body_record) (payloads : list bytes) (fuel : nat) (s : stream)
    (hdr rest : bytes) (h i1 b i2 B : Z) (xs : list Z) :
  Forall wf_record rs →
  Forall2 (λ block payload, zlib_decompress block = Some payload)
          (segment_blocks rs) payloads →
  (length rs < fuel)%nat →
  remaining s = encode_body rs ++ end_of_body ++ hdr ++ pack_seq_i xs ++ rest →
  unpack [Fh; Fi; Fb; Fi; Fi] hdr = Ok (h, (i1, (b, (i2, (B, tt))))) →
  (B - 9) ÷ 4 = Z.of_nat (length xs) →
  Forall (int_range 32) xs →
  segment_indices rs ≠ xs →
  read_content zlib_decompress fuel None s = Raise (AssertionError rnd_lst_eq).
Proof.
  intros Hwf Hz Hfuel Hrem Hun HB Hxs Hne.
  rewrite (read_content_records rs payloads fuel s hdr rest h i1 b i2 B xs
             Hwf Hz Hfuel Hrem Hun HB Hxs).
  by rewrite decide_False.
Qed.

End Records.

Lemma body_is_concatenation_in_read_order_witness :
  read_content zlib_stored 4 None (Stream BufferedReader two_segment_body 0)
    = Ok (str_lit "Hello", 85, Stream BufferedReader two_segment_body 85).
Proof.
  apply (body_is_concatenation_in_read_order zlib_stored two_segment_records
           [[x48; x00; x65; x00]; [x6c; x00; x6c; x00; x6f; x00]] 4
           (Stream BufferedReader two_segment_body 0)
           two_segment_trailer_header [] 2305 8979 36 8979 17);
    [repeat constructor; unfold int_range; cbn; try lia; try congruence
    | repeat constructor | simpl; lia
    | reflexivity | reflexivity | reflexivity].
Defined.

Lemma trailer_must_list_indices_in_read_order_witness :
  read_content zlib_stored 4 None (Stream BufferedReader swapped_trailer_body 0)
    = Raise (AssertionError rnd_lst_eq).
Proof.
  apply (trailer_must_list_indices_in_read_order zlib_stored two_segment_records
           [[x48; x00; x65; x00]; [x6c; x00; x6c; x00; x6f; x00]] 4
           (Stream BufferedReader swapped_trailer_body 0)
           two_segment_trailer_header [] 2305 8979 36 8979 17 [3; 7]);
    [repeat constructor; unfold int_range; cbn; try lia; try congruence
    | repeat constructor | simpl; lia
    | reflexivity | reflexivity | reflexivity
    | repeat constructor; unfold int_range; lia
    | cbn; congruence].
Defined.

Example wrong_trailer_value_raises :
  read_content zlib_stored 2 (Some 94) (Stream BufferedReader wrong_trailer_umd 0)
    = Raise (AssertionError rnd_lst_eq).
Proof. vm_compute. reflexivity. Qed.

(** The scenario of the one-chapter novel, decoded as a whole. *)
Example sample_document_decoded :
  from_stream zlib_stored 2 (Stream BufferedReader sample_umd 0)
    = Ok (sample_document, Stream BufferedReader sample_umd 146).
Proof. vm_compute. reflexivity. Qed.
